(** * KMTronic 4-channel relay driver: a shallow embedding

    The development embeds [RelayControllerStandalone] and the parts of
    [ModernRelayDashboard] that keep the cached relay states
    (Kmtronicrelay4channel.py).  The serial library the program talks to
    is modelled as a scripted transport: every library call is recorded in
    a trace, may be made to raise by a fault script, and acts on explicit
    buffers, so that the bytes reaching the wire can be observed. *)

From Stdlib Require Import ZArith String List Bool Lia DecimalString.
From stdpp Require Import base option list gmap strings fin_maps.

Local Open Scope Z_scope.

(** ** Exceptions and the state-and-exception monad *)

Module Py.

(** The exception classes the program raises or receives.  All of them
    derive from Python's [Exception], so [except Exception] and a bare
    [except] catch every one of them. *)
Inductive exn : Type :=
| Exception (msg : string)
| ValueError (msg : string)
| AttributeError (msg : string)
| KeyError (msg : string)
| SerialException (msg : string).

(** [str(e)] *)
Definition str (e : exn) : string :=
  match e with
  | Exception m | ValueError m | AttributeError m | KeyError m
  | SerialException m => m
  end.

(** [str(n)] / the [{n}] of an f-string, for an integer. *)
Definition str_int (n : Z) : string := NilZero.string_of_int (Z.to_int n).

Inductive outcome (A : Type) : Type :=
| Ret (a : A)
| Raise (e : exn).
Arguments Ret {A} a.
Arguments Raise {A} e.

Definition M (S A : Type) : Type := S -> outcome A * S.

Definition ret {S A} (a : A) : M S A := fun s => (Ret a, s).

Definition raise {S A} (e : exn) : M S A := fun s => (Raise e, s).

Definition bind {S A B} (m : M S A) (k : A -> M S B) : M S B :=
  fun s =>
    match m s with
    | (Ret a, s') => k a s'
    | (Raise e, s') => (Raise e, s')
    end.

(** [try: body except Exception as e: handler e] *)
Definition try_except {S A} (body : M S A) (handler : exn -> M S A) : M S A :=
  fun s =>
    match body s with
    | (Ret a, s') => (Ret a, s')
    | (Raise e, s') => handler e s'
    end.

Definition get {S} : M S S := fun s => (Ret s, s).

Definition modify {S} (f : S -> S) : M S unit := fun s => (Ret tt, f s).

(** Running a computation on a component [T] of the state [S]. *)
Definition zoom {S T A} (proj : S -> T) (inj : T -> S -> S) (m : M T A) : M S A :=
  fun s => let (r, t') := m (proj s) in (r, inj t' s).

End Py.

Import Py.

Notation "'let!' x ':=' c 'in' k" := (bind c (fun x => k))
  (at level 10, x name, c at level 100, k at level 200).
Notation "'run' c 'in' k" := (bind c (fun _ => k))
  (at level 10, c at level 100, k at level 200).

(** ** The serial transport *)

(** A library call made on a port. *)
Inductive call : Type :=
| COpen
| CResetInput
| CResetOutput
| COutWaiting
| CInWaiting
| CWrite (data : list Z)
| CFlush
| CRead (size : nat)
| CClose.

Inductive event : Type :=
| Call (h : nat) (c : call)
| Fault (msg : string)
| Sleep (ms : Z).

(** A [serial.Serial] object.  [out_buf] holds the bytes written and not
    yet transmitted, [wire] the bytes transmitted to the board, [in_buf]
    the bytes received and not yet read.  The timeout is in milliseconds.

    Written bytes stay in [out_buf] until [flush] returns, which is when
    the library guarantees that they were transmitted; a driver may
    transmit some of them earlier.  The split between [out_buf] and
    [wire] is therefore exact after a [flush] that returned, and an
    assumption of the model after a [write] or a [flush] that raised. *)
Record Serial : Type := mkSerial {
  ser_port : string;
  ser_baudrate : Z;
  ser_bytesize : Z;
  ser_stopbits : Z;
  ser_parity : string;
  ser_timeout : Z;
  is_open : bool;
  out_buf : list Z;
  wire : list Z;
  in_buf : list Z
}.

Definition EIGHTBITS : Z := 8.
Definition STOPBITS_ONE : Z := 1.
Definition PARITY_NONE : string := "N".

(** The world outside the program: the heap of port objects, the script
    of faults (one entry is consumed by each library call; [Some msg]
    makes that call raise), the script of arrivals (one entry is consumed
    by each [read]: the bytes the board delivers before the read times
    out), and the trace of what happened: every library call, followed by
    a [Fault] when it raised, and every sleep. *)
Record World : Type := mkWorld {
  ports : gmap nat Serial;
  next_handle : nat;
  faults : list (option string);
  arrivals : list (list Z);
  trace : list event
}.

Definition set_ports (f : gmap nat Serial -> gmap nat Serial) (w : World) : World :=
  mkWorld (f (ports w)) (next_handle w) (faults w) (arrivals w) (trace w).

Definition log (e : event) (w : World) : World :=
  mkWorld (ports w) (next_handle w) (faults w) (arrivals w) (trace w ++ [e]).

(** The fault scheduled for the next library call, and the world once
    that entry of the script is consumed. *)
Definition pending (w : World) : option string :=
  match faults w with
  | f :: _ => f
  | [] => None
  end.

Definition advance (w : World) : World :=
  mkWorld (ports w) (next_handle w) (tail (faults w)) (arrivals w) (trace w).

Definition pop_fault : M World (option string) :=
  fun w => (Ret (pending w), advance w).

Definition pop_arrival : M World (list Z) :=
  fun w =>
    (Ret (hd [] (arrivals w)),
     mkWorld (ports w) (next_handle w) (faults w) (tail (arrivals w)) (trace w)).

Definition set_open (b : bool) (p : Serial) : Serial :=
  mkSerial (ser_port p) (ser_baudrate p) (ser_bytesize p) (ser_stopbits p)
           (ser_parity p) (ser_timeout p) b (out_buf p) (wire p) (in_buf p).

Definition set_out_buf (o : list Z) (p : Serial) : Serial :=
  mkSerial (ser_port p) (ser_baudrate p) (ser_bytesize p) (ser_stopbits p)
           (ser_parity p) (ser_timeout p) (is_open p) o (wire p) (in_buf p).

Definition set_wire (x : list Z) (p : Serial) : Serial :=
  mkSerial (ser_port p) (ser_baudrate p) (ser_bytesize p) (ser_stopbits p)
           (ser_parity p) (ser_timeout p) (is_open p) (out_buf p) x (in_buf p).

Definition set_in_buf (i : list Z) (p : Serial) : Serial :=
  mkSerial (ser_port p) (ser_baudrate p) (ser_bytesize p) (ser_stopbits p)
           (ser_parity p) (ser_timeout p) (is_open p) (out_buf p) (wire p) i.

Module serial.

(** A library call that raises: the failure is traced. *)
Definition fail {A} (msg : string) : M World A :=
  run modify (log (Fault msg)) in
  raise (SerialException msg).

Definition not_open : string := "Attempting to use a port that is not open".

(** The common shape of a method of an open port: the call is traced, the
    fault script decides whether it raises, a closed port refuses it, and
    otherwise [body] gives the result and the new port. *)
Definition method {A} (h : nat) (c : call) (body : Serial -> M World (A * Serial))
  : M World A :=
  run modify (log (Call h c)) in
  let! f := pop_fault in
  match f with
  | Some msg => fail msg
  | None =>
      let! w := get in
      match ports w !! h with
      | None => fail not_open
      | Some p =>
          if is_open p then
            let! r := body p in
            run modify (set_ports (insert h (snd r))) in
            ret (fst r)
          else fail not_open
      end
  end.

(** [serial.Serial(port=..., baudrate=..., ...)]: opens the device and
    returns a fresh port object, or raises. *)
Definition Serial_ (port : string) (baudrate bytesize stopbits : Z)
    (parity : string) (timeout : Z) : M World nat :=
  let! w0 := get in
  let h := next_handle w0 in
  run modify (log (Call h COpen)) in
  let! f := pop_fault in
  match f with
  | Some msg => fail msg
  | None =>
      let p := mkSerial port baudrate bytesize stopbits parity timeout
                        true [] [] [] in
      run modify (fun w => mkWorld (<[h := p]> (ports w)) (S h) (faults w)
                                   (arrivals w) (trace w)) in
      ret h
  end.

Definition reset_input_buffer (h : nat) : M World unit :=
  method h CResetInput (fun p => ret (tt, set_in_buf [] p)).

Definition reset_output_buffer (h : nat) : M World unit :=
  method h CResetOutput (fun p => ret (tt, set_out_buf [] p)).

Definition out_waiting (h : nat) : M World Z :=
  method h COutWaiting (fun p => ret (Z.of_nat (length (out_buf p)), p)).

Definition in_waiting (h : nat) : M World Z :=
  method h CInWaiting (fun p => ret (Z.of_nat (length (in_buf p)), p)).

Definition write (h : nat) (data : list Z) : M World Z :=
  method h (CWrite data)
    (fun p => ret (Z.of_nat (length data), set_out_buf (out_buf p ++ data) p)).

Definition flush (h : nat) : M World unit :=
  method h CFlush
    (fun p => ret (tt, set_out_buf [] (set_wire (wire p ++ out_buf p) p))).

(** [read(size)]: blocks until [size] bytes are there or the timeout
    expires, and returns what it has, at most [size] bytes. *)
Definition read (h : nat) (size : nat) : M World (list Z) :=
  method h (CRead size)
    (fun p =>
       let! a := pop_arrival in
       let avail := in_buf p ++ a in
       ret (take size avail, set_in_buf (drop size avail) p)).

(** [close()]: closing a closed port does nothing. *)
Definition close (h : nat) : M World unit :=
  run modify (log (Call h CClose)) in
  let! f := pop_fault in
  match f with
  | Some msg => fail msg
  | None => modify (set_ports (alter (set_open false) h))
  end.

(** The [is_open] attribute; reading it is not a library call. *)
Definition port_is_open (h : nat) (w : World) : bool :=
  match ports w !! h with
  | Some p => is_open p
  | None => false
  end.

End serial.

Module time.

Definition sleep (ms : Z) : M World unit := modify (log (Sleep ms)).

End time.

(** [bytes([...])]: every element must be in [range(256)]. *)
Definition bytes {S} (l : list Z) : M S (list Z) :=
  if forallb (fun b => (0 <=? b) && (b <? 256)) l then ret l
  else raise (ValueError "bytes must be in range(0, 256)").

(** [enumerate(l, start)] *)
Fixpoint enumerate {A} (start : Z) (l : list A) : list (Z * A) :=
  match l with
  | [] => []
  | x :: l' => (start, x) :: enumerate (start + 1) l'
  end.

(** A dict built from its items in order: a later item overrides an
    earlier one with the same key. *)
Definition dict_of `{Countable K} {V} (items : list (K * V)) : gmap K V :=
  fold_left (fun d kv => <[fst kv := snd kv]> d) items ∅.

(** ** RelayControllerStandalone *)

Record RelayControllerStandalone : Type := mkController {
  com_port : string;
  baudrate : Z;
  timeout : Z;
  connection : option nat;
  is_connected : bool
}.

(** The controller object together with the world it acts on. *)
Record Sys : Type := mkSys {
  self : RelayControllerStandalone;
  env : World
}.

Module Controller.

(** [__init__(self, com_port, baudrate=9600, timeout=2.5)]; the timeout is
    kept in milliseconds. *)
Definition init (com_port : string) (baudrate : Z) (timeout : Z)
  : RelayControllerStandalone :=
  mkController com_port baudrate timeout None false.

Definition default_baudrate : Z := 9600.
Definition default_timeout : Z := 2500.

Definition io {A} (m : M World A) : M Sys A :=
  zoom env (fun w s => mkSys (self s) w) m.

Definition set_connection (c : option nat) : M Sys unit :=
  modify (fun s =>
    mkSys (mkController (com_port (self s)) (baudrate (self s))
             (timeout (self s)) c (is_connected (self s))) (env s)).

Definition set_is_connected (b : bool) : M Sys unit :=
  modify (fun s =>
    mkSys (mkController (com_port (self s)) (baudrate (self s))
             (timeout (self s)) (connection (self s)) b) (env s)).

(** The receiver of [self.connection.m(...)]: calling a method of [None]
    raises [AttributeError]. *)
Definition the_connection : M Sys nat :=
  let! s := get in
  match connection (self s) with
  | Some h => ret h
  | None => raise (AttributeError "'NoneType' object has no attribute")
  end.

(** The [try] block of [connect]. *)
Definition connect_try : M Sys bool :=
  let! s := get in
  let! h := io (serial.Serial_ (com_port (self s)) (baudrate (self s))
                  EIGHTBITS STOPBITS_ONE PARITY_NONE (timeout (self s))) in
  run set_connection (Some h) in
  let! c := the_connection in
  run io (serial.reset_input_buffer c) in
  let! c := the_connection in
  run io (serial.reset_output_buffer c) in
  run io (time.sleep 500) in
  run set_is_connected true in
  ret true.

(** The [except Exception as e] block of [connect]. *)
Definition connect_except (e : exn) : M Sys bool :=
  let! s := get in
  run match connection (self s) with
      | Some h =>
          run try_except (io (serial.close h)) (fun _ => ret tt) in
          set_connection None
      | None => ret tt
      end in
  raise (Exception ("Failed to connect to " +:+ com_port (self s)
                    +:+ ": " +:+ str e)).

Definition connect : M Sys bool := try_except connect_try connect_except.

Definition disconnect : M Sys unit :=
  let! s := get in
  match connection (self s) with
  | Some h =>
      if serial.port_is_open h (env s) then
        run io (serial.close h) in
        set_is_connected false
      else ret tt
  | None => ret tt
  end.

(** [not self.is_connected or not self.connection] *)
Definition not_connected (s : Sys) : bool :=
  negb (is_connected (self s)) ||
  negb (match connection (self s) with Some _ => true | None => false end).

(** The body shared by [turn_on] and [turn_off] inside their [try]. *)
Definition send_command (relay_number : Z) (value : Z) : M Sys unit :=
  let! cmd := bytes [255; relay_number; value] in
  let! c := the_connection in
  let! n := io (serial.out_waiting c) in
  run (if 0 <? n then
         let! c := the_connection in io (serial.reset_output_buffer c)
       else ret tt) in
  let! c := the_connection in
  run io (serial.write c cmd) in
  let! c := the_connection in
  run io (serial.flush c) in
  io (time.sleep 300).

Definition turn_on (relay_number : Z) : M Sys unit :=
  let! s := get in
  if not_connected s then raise (Exception "Not connected to relay board")
  else if negb ((1 <=? relay_number) && (relay_number <=? 4)) then
    raise (ValueError "Relay number must be between 1 and 4")
  else
    try_except (send_command relay_number 1)
      (fun e => raise (Exception ("Failed to turn on relay "
                         +:+ str_int relay_number +:+ ": " +:+ str e))).

Definition turn_off (relay_number : Z) : M Sys unit :=
  let! s := get in
  if not_connected s then raise (Exception "Not connected to relay board")
  else if negb ((1 <=? relay_number) && (relay_number <=? 4)) then
    raise (ValueError "Relay number must be between 1 and 4")
  else
    try_except (send_command relay_number 0)
      (fun e => raise (Exception ("Failed to turn off relay "
                         +:+ str_int relay_number +:+ ": " +:+ str e))).

(** The spec's [setChannel(channel, on)] names the pair [turn_on] and
    [turn_off]. *)
Definition setChannel (channel : Z) (on : bool) : M Sys unit :=
  if on then turn_on channel else turn_off channel.

(** ["ON" if byte == 1 else "OFF"] *)
Definition decode_byte (byte : Z) : string :=
  if byte =? 1 then "ON" else "OFF".

(** The dict comprehension of [get_status]. *)
Definition decode_status (response : list Z) : gmap string string :=
  dict_of (map (fun ib => ("R" +:+ str_int (fst ib), decode_byte (snd ib)))
               (enumerate 1 response)).

Definition get_status : M Sys (gmap string string) :=
  let! s := get in
  if not_connected s then ret ∅
  else
    try_except
      (let! c := the_connection in
       let! n := io (serial.in_waiting c) in
       run (if 0 <? n then
              let! c := the_connection in io (serial.reset_input_buffer c)
            else ret tt) in
       let! status_cmd := bytes [255; 9; 0] in
       let! c := the_connection in
       run io (serial.write c status_cmd) in
       let! c := the_connection in
       run io (serial.flush c) in
       run io (time.sleep 300) in
       let! c := the_connection in
       let! response := io (serial.read c 4) in
       if Nat.eqb (length response) 4 then ret (decode_status response)
       else ret ∅)
      (fun _ => ret ∅).

End Controller.

(** ** ModernRelayDashboard: the cached relay states

    Only the fields and methods that touch the controller or the cache
    are embedded; what a method does to the widgets is recorded as a
    list of user-interface events. *)

Inductive ui_event : Type :=
| ShowError (title msg : string)
| ShowInfo (title msg : string)
| StatusText (text : string)
| ControlsEnabled (enabled : bool)
| RelayUI (relay_num : Z) (is_on : bool)
| After (relay_num : Z) (is_on : bool)
| ThreadStarted
| Destroyed.

Record ModernRelayDashboard : Type := mkDashboard {
  controller : option RelayControllerStandalone;
  relay_states : gmap Z bool;
  status_update_running : bool;
  ui : list ui_event
}.

Record App : Type := mkApp {
  dash : ModernRelayDashboard;
  world : World
}.

Module Dashboard.

(** The part of [__init__] before [setup_ui]. *)
Definition init : ModernRelayDashboard :=
  mkDashboard None
    (<[4 := false]> (<[3 := false]> (<[2 := false]> (<[1 := false]> ∅))))
    false [].

Definition show (e : ui_event) : M App unit :=
  modify (fun a =>
    mkApp (mkDashboard (controller (dash a)) (relay_states (dash a))
             (status_update_running (dash a)) (ui (dash a) ++ [e]))
          (world a)).

Definition set_controller (c : option RelayControllerStandalone) : M App unit :=
  modify (fun a =>
    mkApp (mkDashboard c (relay_states (dash a))
             (status_update_running (dash a)) (ui (dash a)))
          (world a)).

Definition set_relay_state (relay_num : Z) (v : bool) : M App unit :=
  modify (fun a =>
    mkApp (mkDashboard (controller (dash a))
             (<[relay_num := v]> (relay_states (dash a)))
             (status_update_running (dash a)) (ui (dash a)))
          (world a)).

Definition set_status_update_running (b : bool) : M App unit :=
  modify (fun a =>
    mkApp (mkDashboard (controller (dash a)) (relay_states (dash a)) b
             (ui (dash a)))
          (world a)).

(** [self.controller.m(...)]: the method runs on the controller object
    and the world; both are written back. *)
Definition on_controller {A} (m : M Sys A) : M App A :=
  fun a =>
    match controller (dash a) with
    | None => (Raise (AttributeError "'NoneType' object has no attribute"), a)
    | Some c =>
        let (r, s') := m (mkSys c (world a)) in
        (r, mkApp (mkDashboard (Some (self s')) (relay_states (dash a))
                     (status_update_running (dash a)) (ui (dash a)))
                  (env s'))
    end.

(** [self.controller and self.controller.is_connected] *)
Definition controller_connected (a : App) : bool :=
  match controller (dash a) with
  | Some c => is_connected c
  | None => false
  end.

(** [update_relay_ui]: [self.relay_cards] has the keys 1 to 4. *)
Definition update_relay_ui (relay_num : Z) (is_on : bool) : M App unit :=
  if (1 <=? relay_num) && (relay_num <=? 4) then show (RelayUI relay_num is_on)
  else raise (KeyError (str_int relay_num)).

(** [range(1, 5)] *)
Definition range_1_5 : list Z := [1; 2; 3; 4].

Fixpoint for_each {S A} (l : list A) (body : A -> M S unit) : M S unit :=
  match l with
  | [] => ret tt
  | x :: l' => run body x in for_each l' body
  end.

(** [connect], with the port chosen in the combo box as its argument. *)
Definition connect (port : string) : M App unit :=
  if String.eqb port "" then show (ShowError "Error" "Please select a COM port")
  else
    try_except
      (run set_controller (Some (Controller.init port
                                   Controller.default_baudrate
                                   Controller.default_timeout)) in
       run on_controller Controller.connect in
       run show (StatusText "Connected") in
       run show (ControlsEnabled true) in
       run set_status_update_running true in
       run show ThreadStarted in
       show (ShowInfo "Success" ("Connected to " +:+ port)))
      (fun e => show (ShowError "Connection Error" (str e))).

Definition disconnect : M App unit :=
  let! a := get in
  match controller (dash a) with
  | Some _ =>
      run set_status_update_running false in
      run on_controller Controller.disconnect in
      run show (StatusText "Disconnected") in
      run show (ControlsEnabled false) in
      for_each range_1_5 (fun i => update_relay_ui i false)
  | None => ret tt
  end.

Definition turn_relay_on (relay_num : Z) : M App unit :=
  let! a := get in
  if negb (controller_connected a) then ret tt
  else
    try_except
      (run on_controller (Controller.turn_on relay_num) in
       run set_relay_state relay_num true in
       update_relay_ui relay_num true)
      (fun e => show (ShowError "Error" (str e))).

Definition turn_relay_off (relay_num : Z) : M App unit :=
  let! a := get in
  if negb (controller_connected a) then ret tt
  else
    try_except
      (run on_controller (Controller.turn_off relay_num) in
       run set_relay_state relay_num false in
       update_relay_ui relay_num false)
      (fun e => show (ShowError "Error" (str e))).

(** The dashboard's counterpart of [setChannel]. *)
Definition set_relay (relay_num : Z) (on : bool) : M App unit :=
  if on then turn_relay_on relay_num else turn_relay_off relay_num.

Definition toggle_relay (relay_num : Z) : M App unit :=
  let! a := get in
  if negb (controller_connected a) then
    show (ShowError "Error" "Not connected to relay board")
  else
    let current_state := default false (relay_states (dash a) !! relay_num) in
    if current_state then turn_relay_off relay_num
    else turn_relay_on relay_num.

(** One turn of the [while] loop of [update_status_loop], up to and
    including its [time.sleep(1.0)]. *)
Definition update_status_step : M App unit :=
  let! a := get in
  run (if controller_connected a then
         try_except
           (let! statuses := on_controller Controller.get_status in
            for_each range_1_5 (fun relay_num =>
              let key := "R" +:+ str_int relay_num in
              match statuses !! key with
              | Some v =>
                  let is_on := String.eqb v "ON" in
                  run set_relay_state relay_num is_on in
                  show (After relay_num is_on)
              | None => ret tt
              end))
           (fun _ => ret tt)
       else ret tt) in
  zoom world (fun w a => mkApp (dash a) w) (time.sleep 1000).

(** [update_status_loop], run for at most [fuel] turns. *)
Fixpoint update_status_loop (fuel : nat) : M App unit :=
  match fuel with
  | O => ret tt
  | S fuel' =>
      let! a := get in
      if status_update_running (dash a) then
        run update_status_step in update_status_loop fuel'
      else ret tt
  end.

End Dashboard.

(** ** More of the dashboard *)

Module Buttons.

(** [toggle_connection], with the port chosen in the combo box. *)
Definition toggle_connection (port : string) : M App unit :=
  let! a := get in
  if Dashboard.controller_connected a then Dashboard.disconnect
  else Dashboard.connect port.

Definition turn_all_on : M App unit :=
  Dashboard.for_each Dashboard.range_1_5 (fun i => Dashboard.turn_relay_on i).

Definition turn_all_off : M App unit :=
  Dashboard.for_each Dashboard.range_1_5 (fun i => Dashboard.turn_relay_off i).

Definition on_closing : M App unit :=
  run Dashboard.set_status_update_running false in
  let! a := get in
  run (if Dashboard.controller_connected a then
         Dashboard.on_controller Controller.disconnect
       else ret tt) in
  Dashboard.show Destroyed.

End Buttons.

(** * Properties *)

(** ** How a library call runs *)

(** The world after the call [c] on [h] was traced and took its entry
    of the fault script. *)
Definition called (h : nat) (c : call) (w : World) : World :=
  advance (log (Call h c) w).

Definition stored (h : nat) (p : Serial) (w : World) : World :=
  set_ports (insert h p) w.

Lemma ports_stored h p w : ports (stored h p w) !! h = Some p.
Proof. unfold stored. simpl. apply lookup_insert_eq. Qed.

Lemma ports_called h c w : ports (called h c w) = ports w.
Proof. reflexivity. Qed.

Lemma pending_stored h p w : pending (stored h p w) = pending w.
Proof. reflexivity. Qed.

Lemma faults_called h c w : faults (called h c w) = tail (faults w).
Proof. reflexivity. Qed.

Lemma trace_called h c w : trace (called h c w) = trace w ++ [Call h c].
Proof. reflexivity. Qed.

Lemma method_pure {A} h c (body : Serial -> M World (A * Serial)) a p p' w :
  ports w !! h = Some p ->
  is_open p = true ->
  (forall w', body p w' = (Ret (a, p'), w')) ->
  serial.method h c body w =
    match pending w with
    | Some msg => (Raise (SerialException msg), log (Fault msg) (called h c w))
    | None => (Ret a, stored h p' (called h c w))
    end.
Proof.
  intros Hp Ho Hb. unfold serial.method, bind, modify, pop_fault, get. simpl.
  change (pending (log (Call h c) w)) with (pending w).
  destruct (pending w) as [msg|]; [reflexivity|].
  cbv beta. change (ports (advance (log (Call h c) w))) with (ports w).
  rewrite Hp, Ho, Hb. reflexivity.
Qed.

Section OpenPort.

Variables (h : nat) (p : Serial) (w : World).
Hypothesis Hp : ports w !! h = Some p.
Hypothesis Ho : is_open p = true.

(** What a method call on an open port does: it raises the scheduled
    fault, or acts on the port. *)
Definition outcome_of {A} (c : call) (a : A) (p' : Serial) : outcome A * World :=
  match pending w with
  | Some msg => (Raise (SerialException msg), log (Fault msg) (called h c w))
  | None => (Ret a, stored h p' (called h c w))
  end.

Lemma reset_input_buffer_run :
  serial.reset_input_buffer h w = outcome_of CResetInput tt (set_in_buf [] p).
Proof. unfold serial.reset_input_buffer. by erewrite method_pure. Qed.

Lemma reset_output_buffer_run :
  serial.reset_output_buffer h w = outcome_of CResetOutput tt (set_out_buf [] p).
Proof. unfold serial.reset_output_buffer. by erewrite method_pure. Qed.

Lemma out_waiting_run :
  serial.out_waiting h w = outcome_of COutWaiting (Z.of_nat (length (out_buf p))) p.
Proof. unfold serial.out_waiting. by erewrite method_pure. Qed.

Lemma in_waiting_run :
  serial.in_waiting h w = outcome_of CInWaiting (Z.of_nat (length (in_buf p))) p.
Proof. unfold serial.in_waiting. by erewrite method_pure. Qed.

Lemma write_run data :
  serial.write h data w =
  outcome_of (CWrite data) (Z.of_nat (length data))
             (set_out_buf (out_buf p ++ data) p).
Proof. unfold serial.write. by erewrite method_pure. Qed.

Lemma flush_run :
  serial.flush h w =
  outcome_of CFlush tt (set_out_buf [] (set_wire (wire p ++ out_buf p) p)).
Proof. unfold serial.flush. by erewrite method_pure. Qed.

End OpenPort.

(** The world once [read] took its entry of the arrival script. *)
Definition received (w : World) : World :=
  mkWorld (ports w) (next_handle w) (faults w) (tail (arrivals w)) (trace w).

Lemma read_run h p w size :
  ports w !! h = Some p ->
  is_open p = true ->
  serial.read h size w =
    match pending w with
    | Some msg =>
        (Raise (SerialException msg), log (Fault msg) (called h (CRead size) w))
    | None =>
        let avail := in_buf p ++ hd [] (arrivals w) in
        (Ret (take size avail),
         stored h (set_in_buf (drop size avail) p)
                (received (called h (CRead size) w)))
    end.
Proof.
  intros Hp Ho.
  unfold serial.read, serial.method, bind, modify, pop_fault, get. simpl.
  change (pending (log (Call h (CRead size)) w)) with (pending w).
  destruct (pending w) as [msg|]; [reflexivity|].
  cbv beta. change (ports (advance (log (Call h (CRead size)) w))) with (ports w).
  rewrite Hp, Ho. reflexivity.
Qed.

Lemma close_run h w :
  serial.close h w =
    match pending w with
    | Some msg => (Raise (SerialException msg), log (Fault msg) (called h CClose w))
    | None => (Ret tt, set_ports (alter (set_open false) h) (called h CClose w))
    end.
Proof.
  unfold serial.close, bind, modify, pop_fault. simpl.
  change (pending (log (Call h CClose) w)) with (pending w).
  destruct (pending w); reflexivity.
Qed.

Lemma Serial_run port baud bsz stp par tmo w :
  serial.Serial_ port baud bsz stp par tmo w =
    let h := next_handle w in
    match pending w with
    | Some msg => (Raise (SerialException msg), log (Fault msg) (called h COpen w))
    | None =>
        (Ret h,
         mkWorld (<[h := mkSerial port baud bsz stp par tmo true [] [] []]> (ports w))
                 (S h) (tail (faults w)) (arrivals w) (trace w ++ [Call h COpen]))
    end.
Proof.
  unfold serial.Serial_, bind, modify, pop_fault, get. simpl.
  change (pending (log (Call (next_handle w) COpen) w)) with (pending w).
  destruct (pending w); reflexivity.
Qed.

(** ** Running controller code step by step *)

Lemma bind_ret {S A B} (a : A) (k : A -> M S B) s : bind (ret a) k s = k a s.
Proof. reflexivity. Qed.

Lemma bind_assoc {S A B C} (m : M S A) (f : A -> M S B) (k : B -> M S C) s :
  bind (bind m f) k s = bind m (fun a => bind (f a) k) s.
Proof. unfold bind. by destruct (m s) as [[?|?] ?]. Qed.

Lemma bind_io {A B} (m : M World A) (k : A -> M Sys B) c w :
  bind (Controller.io m) k (mkSys c w) =
  match m w with
  | (Ret a, w') => k a (mkSys c w')
  | (Raise e, w') => (Raise e, mkSys c w')
  end.
Proof. unfold bind, Controller.io, zoom. simpl. by destruct (m w) as [[?|?] ?]. Qed.

Lemma io_run {A} (m : M World A) c w :
  Controller.io m (mkSys c w) = (fst (m w), mkSys c (snd (m w))).
Proof. unfold Controller.io, zoom. simpl. by destruct (m w). Qed.

Lemma bind_the_connection {B} (k : nat -> M Sys B) c w h :
  connection c = Some h ->
  bind Controller.the_connection k (mkSys c w) = k h (mkSys c w).
Proof.
  intros H. cbv [bind Controller.the_connection get self]. by rewrite H.
Qed.

Lemma sleep_run ms w : time.sleep ms w = (Ret tt, log (Sleep ms) w).
Proof. reflexivity. Qed.

Ltac port_facts Ho := first [ eassumption | apply ports_stored | exact Ho ].

(** One step of the controller's code on a connection [Hc] whose port is
    open ([Ho]). *)
Ltac step Hc Ho :=
  first
  [ rewrite bind_ret
  | rewrite bind_assoc
  | rewrite (bind_the_connection _ _ _ _ Hc)
  | rewrite bind_io;
    first [ erewrite out_waiting_run by port_facts Ho
          | erewrite in_waiting_run by port_facts Ho
          | erewrite reset_output_buffer_run by port_facts Ho
          | erewrite reset_input_buffer_run by port_facts Ho
          | erewrite write_run by port_facts Ho
          | erewrite flush_run by port_facts Ho
          | erewrite read_run by port_facts Ho
          | rewrite sleep_run ];
    unfold outcome_of ].

Ltac steps Hc Ho := repeat step Hc Ho.

(** The bytes handed to [write] by the calls of a trace. *)
Definition written (e : event) : list Z :=
  match e with
  | Call _ (CWrite data) => data
  | _ => []
  end.

Definition bytes_written (evs : list event) : list Z := concat (map written evs).

(** The calls that may come before the write of a command. *)
Definition clears_output (h : nat) (pre : list event) : Prop :=
  pre = [Call h COutWaiting] \/ pre = [Call h COutWaiting; Call h CResetOutput].

Lemma pending_In w msg : pending w = Some msg -> In (Some msg) (faults w).
Proof. unfold pending. destruct (faults w); [done|]. intros ->. by left. Qed.

Lemma In_tail {A} (x : A) l : In x (tail l) -> In x l.
Proof. destruct l; [done|]. by right. Qed.

(** What [send_command] leaves behind on an open port [p] at [h]. *)
Definition command_sent (h : nat) (p : Serial) (cmd : list Z)
    (s : Sys) (r : outcome unit) (s' : Sys) : Prop :=
  self s' = self s /\
  exists new p',
    trace (env s') = trace (env s) ++ new /\
    ports (env s') !! h = Some p' /\ is_open p' = true /\
    match r with
    | Ret _ =>
        (exists pre, clears_output h pre /\
           new = pre ++ [Call h (CWrite cmd); Call h CFlush; Sleep 300]) /\
        wire p' = wire p ++ cmd /\ out_buf p' = []
    | Raise e =>
        (exists msg pre, e = SerialException msg /\ new = pre ++ [Fault msg] /\
           In (Some msg) (faults (env s)) /\
           (bytes_written pre = [] \/ bytes_written pre = cmd)) /\
        wire p' = wire p
    end.

Ltac leaf :=
  intros [= <- <-]; split; [reflexivity|];
  do 2 eexists;
  split; [cbn [trace env stored called advance log set_ports];
          rewrite <- ?app_assoc; reflexivity|];
  split; [cbn [ports env log]; first [apply ports_stored | eassumption]|];
  split; [assumption|].

(** The leaf in which the call with the pending fault [Hf] raised, after
    the events [pre]. *)
Ltac raised Hf pre :=
  leaf; split; [|reflexivity];
  apply pending_In in Hf;
  cbn [faults stored called advance log set_ports] in Hf;
  repeat apply In_tail in Hf;
  eexists _, pre; by auto.

(** Case analysis on the fault pending for the call under execution. *)
Ltac on_pending m Hf :=
  match goal with
  | |- context [match pending ?x with _ => _ end] =>
      destruct (pending x) as [m|] eqn:Hf
  end.

Lemma send_command_spec c w h p ch v :
  connection c = Some h ->
  ports w !! h = Some p -> is_open p = true ->
  1 <= ch <= 4 -> 0 <= v < 256 ->
  forall r s', Controller.send_command ch v (mkSys c w) = (r, s') ->
  command_sent h p [255; ch; v] (mkSys c w) r s'.
Proof.
  intros Hc Hp Ho Hch Hv r s'.
  unfold Controller.send_command, bytes.
  replace (forallb _ _) with true
    by (simpl; symmetry; rewrite !andb_true_iff; repeat split; lia).
  steps Hc Ho.
  on_pending m1 Hf1.
  { raised Hf1 constr:([Call h COutWaiting]). }
  destruct (0 <? _) eqn:Hn.
  - steps Hc Ho. on_pending m2 Hf2.
    { raised Hf2 constr:([Call h COutWaiting; Call h CResetOutput]). }
    steps Hc Ho. on_pending m3 Hf3.
    { raised Hf3 constr:([Call h COutWaiting; Call h CResetOutput;
                  Call h (CWrite [255; ch; v])]). }
    steps Hc Ho. on_pending m4 Hf4.
    { raised Hf4 constr:([Call h COutWaiting; Call h CResetOutput;
                  Call h (CWrite [255; ch; v]); Call h CFlush]). }
    rewrite io_run. leaf. split; [|by auto].
    exists [Call h COutWaiting; Call h CResetOutput]. unfold clears_output. by auto.
  - steps Hc Ho. on_pending m3 Hf3.
    { raised Hf3 constr:([Call h COutWaiting; Call h (CWrite [255; ch; v])]). }
    steps Hc Ho. on_pending m4 Hf4.
    { raised Hf4 constr:([Call h COutWaiting; Call h (CWrite [255; ch; v]); Call h CFlush]). }
    assert (He : out_buf p = []) by (destruct (out_buf p); [done | discriminate Hn]).
    rewrite io_run. leaf. cbn [wire out_buf set_out_buf set_wire]. rewrite He.
    split; [|by auto].
    exists [Call h COutWaiting]. unfold clears_output. by auto.
Qed.

(** ** The states of the driver *)

(** Connected: the flag is set and the handle refers to an open port. *)
Definition Connected (s : Sys) (h : nat) (p : Serial) : Prop :=
  is_connected (self s) = true /\ connection (self s) = Some h /\
  ports (env s) !! h = Some p /\ is_open p = true.

(** The frame of the wire protocol for [setChannel(channel, on)]. *)
Definition frame (channel : Z) (on : bool) : list Z :=
  [255; channel; if on then 1 else 0].

Definition not_connected_error : exn := Exception "Not connected to relay board".

Definition invalid_channel_error : exn :=
  ValueError "Relay number must be between 1 and 4".

(** The message of the exception a failed command is wrapped into. *)
Definition command_failure (channel : Z) (on : bool) (cause : string) : exn :=
  Exception ("Failed to turn " +:+ (if on then "on" else "off") +:+ " relay "
             +:+ str_int channel +:+ ": " +:+ cause).

Lemma Connected_guard s h p : Connected s h p -> Controller.not_connected s = false.
Proof. intros (Hi & Hc & _). unfold Controller.not_connected. by rewrite Hi, Hc. Qed.

Lemma channel_guard ch :
  1 <= ch <= 4 -> negb ((1 <=? ch) && (ch <=? 4)) = false.
Proof.
  intros. apply negb_false_iff, andb_true_iff. split; apply Z.leb_le; lia.
Qed.

Lemma channel_guard_out ch :
  ~ 1 <= ch <= 4 -> negb ((1 <=? ch) && (ch <=? 4)) = true.
Proof.
  intros Hn. apply negb_true_iff, not_true_is_false. intros H.
  apply andb_true_iff in H as [H1 H2]. apply Z.leb_le in H1, H2. lia.
Qed.

(** Past its two guards, [setChannel] is the command inside its [try]. *)
Lemma setChannel_guarded s h p ch on :
  Connected s h p -> 1 <= ch <= 4 ->
  Controller.setChannel ch on s =
    match Controller.send_command ch (if on then 1 else 0) s with
    | (Ret a, s') => (Ret a, s')
    | (Raise e, s') => (Raise (command_failure ch on (str e)), s')
    end.
Proof.
  intros Hs Hch.
  unfold Controller.setChannel, Controller.turn_on, Controller.turn_off.
  destruct on; cbv [bind get]; rewrite (Connected_guard _ _ _ Hs);
    rewrite (channel_guard _ Hch); unfold try_except;
    destruct (Controller.send_command _ _ s) as [[?|?] ?]; reflexivity.
Qed.

(** [setChannel] on a driver whose flag is off raises the not-connected
    error and leaves the driver and the world as they were. *)
Lemma setChannel_not_connected s ch on :
  is_connected (self s) = false ->
  Controller.setChannel ch on s = (Raise not_connected_error, s).
Proof.
  intros Hi.
  unfold Controller.setChannel, Controller.turn_on, Controller.turn_off.
  destruct on; cbv [bind get Controller.not_connected]; by rewrite Hi.
Qed.

(** On a connected driver a channel outside 1..4 raises the
    invalid-channel error, again without touching the world. *)
Lemma setChannel_invalid_channel s h p ch on :
  Connected s h p -> ~ 1 <= ch <= 4 ->
  Controller.setChannel ch on s = (Raise invalid_channel_error, s).
Proof.
  intros Hs Hch.
  unfold Controller.setChannel, Controller.turn_on, Controller.turn_off.
  destruct on; cbv [bind get]; rewrite (Connected_guard _ _ _ Hs);
    by rewrite (channel_guard_out _ Hch).
Qed.

(** ** A concrete driver, for the examples *)

Definition port0 : Serial := mkSerial "COM3" 9600 8 1 "N" 2500 true [] [] [].

Definition world0 (fs : list (option string)) (arr : list (list Z)) : World :=
  mkWorld (<[0%nat := port0]> ∅) 1 fs arr [].

Definition ctrl0 : RelayControllerStandalone :=
  mkController "COM3" 9600 2500 (Some 0%nat) true.

Definition sys0 (fs : list (option string)) (arr : list (list Z)) : Sys :=
  mkSys ctrl0 (world0 fs arr).

Lemma Connected_sys0 fs arr : Connected (sys0 fs arr) 0 port0.
Proof. repeat split. Qed.

(** ** Commands *)

(** C1: on a connected driver and for a channel in 1..4, the only bytes
    [setChannel] ever hands to [write] are the frame [0xFF, ch, on?1:0];
    when it returns normally (which it does if no fault is scheduled) the
    trace ends with that single write followed by the flush and the
    settle delay, and the wire received exactly the frame. *)
Theorem setChannel_writes_frame s h p ch on r s' :
  Connected s h p -> 1 <= ch <= 4 ->
  Controller.setChannel ch on s = (r, s') ->
  exists new p',
    trace (env s') = trace (env s) ++ new /\
    ports (env s') !! h = Some p' /\
    (bytes_written new = [] \/ bytes_written new = frame ch on) /\
    (faults (env s) = [] -> r = Ret tt) /\
    (r = Ret tt ->
       (exists pre, clears_output h pre /\
          new = pre ++ [Call h (CWrite (frame ch on)); Call h CFlush; Sleep 300]) /\
       bytes_written new = frame ch on /\
       wire p' = wire p ++ frame ch on).
Proof.
  intros Hs Hch. rewrite (setChannel_guarded _ _ _ _ _ Hs Hch).
  destruct Hs as (Hi & Hc & Hp & Ho). destruct s as [c w]. simpl in *.
  assert (Hv : 0 <= (if on then 1 else 0) < 256) by (destruct on; lia).
  destruct (Controller.send_command _ _ _) as [r0 s0] eqn:Hrun.
  pose proof (send_command_spec _ _ _ _ _ _ Hc Hp Ho Hch Hv _ _ Hrun)
    as (_ & new & p' & Ht & Hp' & _ & Hr).
  destruct r0 as [[]|e0]; intros [= <- <-]; exists new, p';
    (split; [exact Ht|]); (split; [exact Hp'|]).
  - destruct Hr as ((pre & Hpre & ->) & Hw & _).
    assert (Hb : bytes_written
                   (pre ++ [Call h (CWrite (frame ch on)); Call h CFlush; Sleep 300])
                 = frame ch on)
      by (destruct Hpre as [-> | ->]; reflexivity).
    split; [by right|]. split; [done|]. intros _. by eauto.
  - destruct Hr as ((msg & pre & -> & -> & Hin & Hb) & _).
    split.
    { unfold bytes_written in *. rewrite map_app, concat_app. simpl.
      rewrite app_nil_r. exact Hb. }
    split; [|discriminate]. cbn [env] in Hin |- *.
    intros Hnil. rewrite Hnil in Hin. destruct Hin.
Qed.

Lemma setChannel_writes_frame_witness :
  exists p',
    ports (env (snd (Controller.setChannel 2 true (sys0 [] [])))) !! 0%nat = Some p' /\
    wire p' = [255; 2; 1].
Proof.
  destruct (setChannel_writes_frame (sys0 [] []) 0 port0 2 true (Ret tt)
              (snd (Controller.setChannel 2 true (sys0 [] []))))
    as (new & p' & _ & Hp & _ & _ & Hok).
  - apply Connected_sys0.
  - lia.
  - vm_compute. reflexivity.
  - exists p'. split; [exact Hp|]. destruct (Hok eq_refl) as (_ & _ & Hw). exact Hw.
Defined.

(** C3: [setChannel] checks its preconditions before any input or output:
    with the flag off it raises the not-connected error, and on a
    connected driver with a channel outside 1..4 it raises the
    invalid-channel error; both leave the driver and the world untouched,
    so the trace gains no call and no byte is written. *)
Theorem setChannel_preconditions s ch on :
  (is_connected (self s) = false ->
   Controller.setChannel ch on s = (Raise not_connected_error, s)) /\
  (forall h p, Connected s h p -> ~ 1 <= ch <= 4 ->
   Controller.setChannel ch on s = (Raise invalid_channel_error, s)).
Proof.
  split.
  - apply setChannel_not_connected.
  - intros h p. apply setChannel_invalid_channel.
Qed.

Lemma setChannel_preconditions_witness :
  Controller.setChannel 3 true (mkSys (Controller.init "COM3" 9600 2500) (world0 [] []))
    = (Raise not_connected_error,
       mkSys (Controller.init "COM3" 9600 2500) (world0 [] [])) /\
  Controller.setChannel 0 true (sys0 [] []) = (Raise invalid_channel_error, sys0 [] []) /\
  Controller.setChannel 5 false (sys0 [] []) = (Raise invalid_channel_error, sys0 [] []) /\
  Controller.setChannel (-1) true (sys0 [] []) = (Raise invalid_channel_error, sys0 [] []) /\
  Controller.setChannel 255 false (sys0 [] []) = (Raise invalid_channel_error, sys0 [] []).
Proof.
  split.
  { apply (proj1 (setChannel_preconditions _ 3 true)). reflexivity. }
  split; [|split; [|split]].
  - apply (proj2 (setChannel_preconditions _ 0 true) 0%nat port0);
      [apply Connected_sys0 | lia].
  - apply (proj2 (setChannel_preconditions _ 5 false) 0%nat port0);
      [apply Connected_sys0 | lia].
  - apply (proj2 (setChannel_preconditions _ (-1) true) 0%nat port0);
      [apply Connected_sys0 | lia].
  - apply (proj2 (setChannel_preconditions _ 255 false) 0%nat port0);
      [apply Connected_sys0 | lia].
Defined.

(** ** The dashboard's cache *)

(** The dashboard after a controller method left the controller [c'] and
    the world [w'], with the cache [rs] and the interface events [evs]
    added. *)
Definition dash_after (a : App) (c' : RelayControllerStandalone)
    (rs : gmap Z bool) (evs : list ui_event) (w' : World) : App :=
  mkApp (mkDashboard (Some c') rs (status_update_running (dash a))
           (ui (dash a) ++ evs)) w'.

(** [turn_relay_on] and [turn_relay_off] in terms of the controller's
    [setChannel]. *)
Lemma set_relay_run a c ch on :
  controller (dash a) = Some c -> is_connected c = true ->
  Dashboard.set_relay ch on a =
    match Controller.setChannel ch on (mkSys c (world a)) with
    | (Ret _, s') =>
        (Ret tt,
         dash_after a (self s') (<[ch := on]> (relay_states (dash a)))
           [if (1 <=? ch) && (ch <=? 4) then RelayUI ch on
            else ShowError "Error" (str_int ch)] (env s'))
    | (Raise e, s') =>
        (Ret tt,
         dash_after a (self s') (relay_states (dash a))
           [ShowError "Error" (str e)] (env s'))
    end.
Proof.
  intros Hc Hi.
  unfold Dashboard.set_relay, Dashboard.turn_relay_on, Dashboard.turn_relay_off,
    Controller.setChannel.
  destruct on; cbv [bind get Dashboard.controller_connected]; rewrite Hc, Hi;
    cbv [negb try_except Dashboard.on_controller]; rewrite Hc.
  - destruct (Controller.turn_on ch _) as [[[]|e] s']; [|reflexivity].
    cbv [Dashboard.set_relay_state modify Dashboard.update_relay_ui]. simpl.
    destruct ((1 <=? ch) && (ch <=? 4)); reflexivity.
  - destruct (Controller.turn_off ch _) as [[[]|e] s']; [|reflexivity].
    cbv [Dashboard.set_relay_state modify Dashboard.update_relay_ui]. simpl.
    destruct ((1 <=? ch) && (ch <=? 4)); reflexivity.
Qed.

(** Without a connected controller the two methods return at once. *)
Lemma set_relay_idle a ch on :
  Dashboard.controller_connected a = false ->
  Dashboard.set_relay ch on a = (Ret tt, a).
Proof.
  intros Hn.
  unfold Dashboard.set_relay, Dashboard.turn_relay_on, Dashboard.turn_relay_off.
  destruct on; cbv [bind get]; by rewrite Hn.
Qed.

Definition app0 (fs : list (option string)) (arr : list (list Z)) : App :=
  mkApp (mkDashboard (Some ctrl0) (relay_states Dashboard.init) true [])
        (world0 fs arr).

(** C5: when [setChannel], past its guards, fails on a fault of the
    clear/write/flush sequence, the caller receives the exception that
    wraps the cause ("Failed to turn on/off relay N: cause"), the
    controller object is left as it was, and the dashboard, which catches
    the exception and reports it, leaves its cached relay states
    unchanged. *)
Theorem setChannel_io_failure a c h p ch on e s' :
  controller (dash a) = Some c ->
  Connected (mkSys c (world a)) h p -> 1 <= ch <= 4 ->
  Controller.setChannel ch on (mkSys c (world a)) = (Raise e, s') ->
  (exists cause,
     In (Some cause) (faults (world a)) /\ e = command_failure ch on cause) /\
  self s' = c /\
  Dashboard.set_relay ch on a =
    (Ret tt, dash_after a c (relay_states (dash a))
               [ShowError "Error" (str e)] (env s')) /\
  relay_states (dash (snd (Dashboard.set_relay ch on a))) = relay_states (dash a).
Proof.
  intros Hctl Hs Hch Hrun.
  assert (Hi : is_connected c = true) by apply Hs.
  pose proof (set_relay_run a c ch on Hctl Hi) as Hd. rewrite Hrun in Hd.
  rewrite (setChannel_guarded _ _ _ _ _ Hs Hch) in Hrun.
  destruct Hs as (_ & Hc & Hp & Ho). simpl in Hc, Hp.
  assert (Hv : 0 <= (if on then 1 else 0) < 256) by (destruct on; lia).
  destruct (Controller.send_command _ _ _) as [r0 s0] eqn:Hcmd.
  pose proof (send_command_spec _ _ _ _ _ _ Hc Hp Ho Hch Hv _ _ Hcmd)
    as (Hself & new & p' & _ & _ & _ & Hr).
  destruct r0 as [[]|e0]; [discriminate|].
  injection Hrun as <- <-.
  destruct Hr as ((msg & pre & -> & _ & Hin & _) & _).
  simpl in Hself. rewrite Hself in Hd.
  split; [by exists msg|]. split; [exact Hself|].
  split; [exact Hd|]. by rewrite Hd.
Qed.

Lemma setChannel_io_failure_witness :
  relay_states
    (dash (snd (Dashboard.set_relay 2 true (app0 [None; Some "write timeout"] []))))
  = relay_states Dashboard.init.
Proof.
  refine (proj2 (proj2 (proj2
    (setChannel_io_failure (app0 [None; Some "write timeout"] []) ctrl0 0 port0
       2 true (command_failure 2 true "write timeout")
       (snd (Controller.setChannel 2 true (sys0 [None; Some "write timeout"] [])))
       eq_refl (Connected_sys0 _ _) _ _)))).
  - lia.
  - vm_compute. reflexivity.
Defined.

(** The key of a channel in the dict returned by [get_status]. *)
Definition status_key (relay_num : Z) : string := "R" +:+ str_int relay_num.

(** The body of the [for] loop of [update_status_loop]. *)
Definition poll_body (statuses : gmap string string) (relay_num : Z) : M App unit :=
  match statuses !! status_key relay_num with
  | Some v =>
      let is_on := String.eqb v "ON" in
      run Dashboard.set_relay_state relay_num is_on in
      Dashboard.show (After relay_num is_on)
  | None => ret tt
  end.

(** The loop only assigns the channels whose key is in the dict. *)
Lemma poll_loop_preserves statuses ch l a :
  (forall k, In k l -> k = ch -> statuses !! status_key k = None) ->
  exists a',
    Dashboard.for_each l (poll_body statuses) a = (Ret tt, a') /\
    relay_states (dash a') !! ch = relay_states (dash a) !! ch /\
    world a' = world a.
Proof.
  revert a. induction l as [|k l IH]; intros a Hk.
  - by exists a.
  - cbn [Dashboard.for_each]. unfold bind at 1.
    assert (Hstep : exists a1, poll_body statuses k a = (Ret tt, a1) /\
              relay_states (dash a1) !! ch = relay_states (dash a) !! ch /\
              world a1 = world a).
    { unfold poll_body. destruct (statuses !! status_key k) as [v|] eqn:Hv.
      - eexists. split; [reflexivity|]. split; [|reflexivity]. simpl.
        apply lookup_insert_ne. intros ->.
        rewrite (Hk ch) in Hv; [discriminate | by left | done].
      - by exists a. }
    destruct Hstep as (a1 & -> & Hrs & Hw).
    destruct (IH a1) as (a' & Hrun & Hrs' & Hw').
    { intros k' Hin. apply Hk. by right. }
    exists a'. split; [exact Hrun|]. split; congruence.
Qed.

Lemma controller_connected_inv a :
  Dashboard.controller_connected a = true ->
  exists c, controller (dash a) = Some c /\ is_connected c = true.
Proof.
  unfold Dashboard.controller_connected.
  destruct (controller (dash a)) as [c|]; [|discriminate]. by exists c.
Qed.

Lemma set_relay_other a k on ch :
  k <> ch ->
  relay_states (dash (snd (Dashboard.set_relay k on a))) !! ch
  = relay_states (dash a) !! ch.
Proof.
  intros Hk. destruct (Dashboard.controller_connected a) eqn:Hconn.
  - apply controller_connected_inv in Hconn as (c & Hc & Hi).
    rewrite (set_relay_run a c k on Hc Hi).
    destruct (Controller.setChannel k on _) as [[[]|e] s']; simpl; [|done].
    by apply lookup_insert_ne.
  - by rewrite set_relay_idle.
Qed.

Lemma toggle_relay_other a k ch :
  k <> ch ->
  relay_states (dash (snd (Dashboard.toggle_relay k a))) !! ch
  = relay_states (dash a) !! ch.
Proof.
  intros Hk. unfold Dashboard.toggle_relay. cbv [bind get].
  destruct (negb (Dashboard.controller_connected a)); [done|].
  destruct (default false (relay_states (dash a) !! k)).
  - apply (set_relay_other a k false ch Hk).
  - apply (set_relay_other a k true ch Hk).
Qed.

(** The dict the next poll of the dashboard decodes: empty when the
    dashboard does not poll. *)
Definition polled (a : App) : gmap string string :=
  match controller (dash a) with
  | Some c =>
      if is_connected c then
        match fst (Controller.get_status (mkSys c (world a))) with
        | Ret d => d
        | Raise _ => ∅
        end
      else ∅
  | None => ∅
  end.

Definition poll_assigns (a : App) (ch : Z) : Prop :=
  In ch Dashboard.range_1_5 /\ is_Some (polled a !! status_key ch).

Lemma update_status_step_other a ch :
  ~ poll_assigns a ch ->
  relay_states (dash (snd (Dashboard.update_status_step a))) !! ch
  = relay_states (dash a) !! ch.
Proof.
  intros Hn. unfold Dashboard.update_status_step. cbv [bind get].
  destruct (Dashboard.controller_connected a) eqn:Hconn; [|done].
  apply controller_connected_inv in Hconn as (c & Hc & Hi).
  assert (Hp : polled a =
               match fst (Controller.get_status (mkSys c (world a))) with
               | Ret d => d
               | Raise _ => ∅
               end) by (unfold polled; by rewrite Hc, Hi).
  cbv [try_except Dashboard.on_controller]. rewrite Hc.
  destruct (Controller.get_status _) as [[d|e] s']; [|done].
  simpl in Hp.
  match goal with
  | |- context [Dashboard.for_each ?l ?f ?a1] =>
      change (Dashboard.for_each l f a1)
        with (Dashboard.for_each l (poll_body d) a1);
      destruct (poll_loop_preserves d ch l a1) as (a' & Hrun & Hrs & _)
  end.
  { intros k Hin ->. destruct (d !! status_key ch) eqn:Hd; [|done].
    exfalso. apply Hn. split; [done|]. rewrite Hp, Hd. by eexists. }
  rewrite Hrun. simpl. exact Hrs.
Qed.

Lemma connect_cache port a :
  relay_states (dash (snd (Dashboard.connect port a))) = relay_states (dash a).
Proof.
  unfold Dashboard.connect. destruct (String.eqb port ""); [done|].
  cbv [try_except bind Dashboard.set_controller modify Dashboard.on_controller].
  simpl. by destruct (Controller.connect _) as [[b|e] s'].
Qed.

Lemma disconnect_cache a :
  relay_states (dash (snd (Dashboard.disconnect a))) = relay_states (dash a).
Proof.
  unfold Dashboard.disconnect. cbv [bind get].
  destruct (controller (dash a)) as [c|] eqn:Hc; [|done].
  cbv [Dashboard.set_status_update_running modify Dashboard.on_controller].
  simpl. rewrite Hc.
  by destruct (Controller.disconnect _) as [[[]|e] s'].
Qed.

(** What the user and the polling thread do to the dashboard. *)
Inductive op : Type :=
| OpSet (relay_num : Z) (on : bool)
| OpToggle (relay_num : Z)
| OpPoll
| OpConnect (port : string)
| OpDisconnect.

Definition run_op (o : op) : M App unit :=
  match o with
  | OpSet k on => Dashboard.set_relay k on
  | OpToggle k => Dashboard.toggle_relay k
  | OpPoll => Dashboard.update_status_step
  | OpConnect port => Dashboard.connect port
  | OpDisconnect => Dashboard.disconnect
  end.

Definition exec (o : op) (a : App) : App := snd (run_op o a).

Definition exec_all (l : list op) (a : App) : App :=
  fold_left (fun a o => exec o a) l a.

(** An operation that writes to [ch], or a poll whose decoded dict
    assigns [ch]. *)
Definition assigns (ch : Z) (o : op) (a : App) : Prop :=
  match o with
  | OpSet k _ | OpToggle k => k = ch
  | OpPoll => poll_assigns a ch
  | OpConnect _ | OpDisconnect => False
  end.

(** No operation of [l], run from [a], assigns [ch]. *)
Fixpoint untouched (ch : Z) (l : list op) (a : App) : Prop :=
  match l with
  | [] => True
  | o :: l' => ~ assigns ch o a /\ untouched ch l' (exec o a)
  end.

Lemma exec_other ch o a :
  ~ assigns ch o a ->
  relay_states (dash (exec o a)) !! ch = relay_states (dash a) !! ch.
Proof.
  destruct o as [k on|k| |port|]; simpl; intros Hn; unfold exec; simpl.
  - by apply set_relay_other.
  - by apply toggle_relay_other.
  - by apply update_status_step_other.
  - by rewrite connect_cache.
  - by rewrite disconnect_cache.
Qed.

Lemma exec_all_untouched ch l a :
  untouched ch l a ->
  relay_states (dash (exec_all l a)) !! ch = relay_states (dash a) !! ch.
Proof.
  revert a. induction l as [|o l IH]; intros a; simpl; [done|].
  intros [Hn Hl]. unfold exec_all in *. simpl.
  rewrite (IH _ Hl). by apply exec_other.
Qed.

(** C9: once [turn_on ch] has returned normally, [turn_relay_on ch] leaves
    the cached state of [ch] at true; the update is optimistic, as it is
    made on the command's return and nothing is read from the board; and
    the cached state stays true through every later sequence of dashboard
    operations none of which writes to [ch] or decodes a status that
    assigns [ch]. *)
Theorem cache_round_trip a c h p ch s' l :
  controller (dash a) = Some c ->
  Connected (mkSys c (world a)) h p ->
  Controller.turn_on ch (mkSys c (world a)) = (Ret tt, s') ->
  let a' := snd (Dashboard.turn_relay_on ch a) in
  relay_states (dash a') !! ch = Some true /\
  world a' = env s' /\
  (exists new, trace (world a') = trace (world a) ++ new /\
               forall h' n, ~ In (Call h' (CRead n)) new) /\
  (untouched ch l a' ->
   relay_states (dash (exec_all l a')) !! ch = Some true).
Proof.
  intros Hctl Hs Hrun a'.
  assert (Hi : is_connected c = true) by apply Hs.
  pose proof (set_relay_run a c ch true Hctl Hi) as Hd.
  change (Controller.setChannel ch true) with (Controller.turn_on ch) in Hd.
  change (Dashboard.set_relay ch true) with (Dashboard.turn_relay_on ch) in Hd.
  rewrite Hrun in Hd.
  assert (Hcache : relay_states (dash a') !! ch = Some true).
  { subst a'. rewrite Hd. simpl. apply lookup_insert_eq. }
  assert (Hw : world a' = env s') by (subst a'; by rewrite Hd).
  split; [exact Hcache|]. split; [exact Hw|]. split.
  - rewrite Hw.
    destruct (decide (1 <= ch <= 4)) as [Hch|Hch].
    + change (Controller.turn_on ch) with (Controller.setChannel ch true) in Hrun.
      rewrite (setChannel_guarded _ _ _ _ _ Hs Hch) in Hrun.
      destruct Hs as (_ & Hc & Hp & Ho). simpl in Hc, Hp.
      destruct (Controller.send_command _ _ _) as [r0 s0] eqn:Hcmd.
      assert (Hv : 0 <= 1 < 256) by lia.
      pose proof (send_command_spec _ _ _ _ _ _ Hc Hp Ho Hch Hv _ _ Hcmd)
        as (_ & new & p' & Ht & _ & _ & Hr).
      destruct r0 as [[]|e0]; [|discriminate]. injection Hrun as <-.
      exists new. split; [exact Ht|].
      destruct Hr as ((pre & Hpre & ->) & _). intros h' n Hin.
      apply in_app_or in Hin as [Hin|Hin].
      * destruct Hpre as [-> | ->]; simpl in Hin; intuition discriminate.
      * simpl in Hin. intuition discriminate.
    + change (Controller.turn_on ch) with (Controller.setChannel ch true) in Hrun.
      rewrite (setChannel_invalid_channel _ _ _ _ _ Hs Hch) in Hrun. discriminate.
  - intros Hl. by rewrite (exec_all_untouched ch l a' Hl).
Qed.

Lemma cache_round_trip_witness :
  relay_states
    (dash (exec_all [OpSet 3 true; OpPoll; OpToggle 1; OpDisconnect]
             (snd (Dashboard.turn_relay_on 2 (app0 [] [])))))
    !! 2 = Some true.
Proof.
  refine (proj2 (proj2 (proj2
    (cache_round_trip (app0 [] []) ctrl0 0 port0 2
       (snd (Controller.turn_on 2 (sys0 [] [])))
       [OpSet 3 true; OpPoll; OpToggle 1; OpDisconnect]
       eq_refl (Connected_sys0 _ _) _))) _).
  - vm_compute. reflexivity.
  - simpl. split; [lia|]. split.
    + intros [_ [v Hv]]. vm_compute in Hv. discriminate.
    + split; [lia|]. split; [tauto | exact I].
Defined.

(** ** Status queries *)

Definition status_request : list Z := [255; 9; 0].

(** The calls that may come before the write of the status request. *)
Definition clears_input (h : nat) (pre : list event) : Prop :=
  pre = [Call h CInWaiting] \/ pre = [Call h CInWaiting; Call h CResetInput].

(** What [get_status] leaves behind on an open port [p] at [h]: either a
    call raised and the result is the empty dict, or the request was
    sent (behind whatever was still waiting in the output buffer, which
    [get_status] does not clear), four bytes were asked for, and the
    result is decided by what arrived. *)
Definition status_polled (h : nat) (p : Serial)
    (s : Sys) (r : outcome (gmap string string)) (s' : Sys) : Prop :=
  self s' = self s /\
  exists new p',
    trace (env s') = trace (env s) ++ new /\
    ports (env s') !! h = Some p' /\
    ((r = Ret ∅ /\
      exists msg pre, new = pre ++ [Fault msg] /\ In (Some msg) (faults (env s)))
     \/
     ((exists pre, clears_input h pre /\
         new = pre ++ [Call h (CWrite status_request); Call h CFlush;
                       Sleep 300; Call h (CRead 4)]) /\
      (forall msg, ~ In (Fault msg) new) /\
      wire p' = wire p ++ out_buf p ++ status_request /\
      let response := take 4 (hd [] (arrivals (env s))) in
      r = Ret (if Nat.eqb (length response) 4
               then Controller.decode_status response else ∅))).

Ltac poll_leaf :=
  intros [= <- <-]; split; [reflexivity|];
  do 2 eexists;
  split; [cbn [trace env stored called advance log set_ports received];
          rewrite <- ?app_assoc; reflexivity|];
  split; [cbn [ports env log]; first [apply ports_stored | eassumption]|].

Ltac poll_raised Hf pre :=
  poll_leaf; left; split; [reflexivity|];
  apply pending_In in Hf;
  cbn [faults stored called advance log set_ports received] in Hf;
  repeat apply In_tail in Hf;
  eexists _, pre; by auto.

Lemma bind_get {S B} (k : S -> M S B) s : bind get k s = k s s.
Proof. reflexivity. Qed.

Lemma get_status_spec c w h p :
  is_connected c = true -> connection c = Some h ->
  ports w !! h = Some p -> is_open p = true ->
  forall r s', Controller.get_status (mkSys c w) = (r, s') ->
  status_polled h p (mkSys c w) r s'.
Proof.
  intros Hi Hc Hp Ho r s'.
  unfold Controller.get_status. rewrite bind_get.
  unfold Controller.not_connected. cbn [self]. rewrite Hi, Hc. cbn [negb orb].
  unfold try_except, bytes. cbn [forallb Z.leb Z.ltb Z.compare andb Pos.compare
    Pos.compare_cont].
  steps Hc Ho.
  on_pending m1 Hf1.
  { poll_raised Hf1 constr:([Call h CInWaiting]). }
  destruct (0 <? _) eqn:Hn.
  - steps Hc Ho. on_pending m2 Hf2.
    { poll_raised Hf2 constr:([Call h CInWaiting; Call h CResetInput]). }
    steps Hc Ho. on_pending m3 Hf3.
    { poll_raised Hf3 constr:([Call h CInWaiting; Call h CResetInput;
                               Call h (CWrite [255; 9; 0])]). }
    steps Hc Ho. on_pending m4 Hf4.
    { poll_raised Hf4 constr:([Call h CInWaiting; Call h CResetInput;
                               Call h (CWrite [255; 9; 0]); Call h CFlush]). }
    steps Hc Ho. on_pending m5 Hf5.
    { poll_raised Hf5 constr:([Call h CInWaiting; Call h CResetInput;
                               Call h (CWrite [255; 9; 0]); Call h CFlush;
                               Sleep 300; Call h (CRead 4)]). }
    cbv zeta.
    cbn [in_buf out_buf wire set_in_buf set_out_buf set_wire arrivals log
         stored called advance set_ports received app].
    destruct (Nat.eqb _ 4) eqn:Hlen; poll_leaf; right;
      (split; [exists [Call h CInWaiting; Call h CResetInput];
               unfold clears_input; by auto|]);
      (split; [intros msg Hin; simpl in Hin; intuition discriminate|]);
      (split; [reflexivity|]); cbn [env]; by rewrite Hlen.
  - assert (He : in_buf p = []) by (destruct (in_buf p); [done | discriminate Hn]).
    steps Hc Ho. on_pending m3 Hf3.
    { poll_raised Hf3 constr:([Call h CInWaiting; Call h (CWrite [255; 9; 0])]). }
    steps Hc Ho. on_pending m4 Hf4.
    { poll_raised Hf4 constr:([Call h CInWaiting; Call h (CWrite [255; 9; 0]);
                               Call h CFlush]). }
    steps Hc Ho. on_pending m5 Hf5.
    { poll_raised Hf5 constr:([Call h CInWaiting; Call h (CWrite [255; 9; 0]);
                               Call h CFlush; Sleep 300; Call h (CRead 4)]). }
    cbv zeta.
    cbn [in_buf out_buf wire set_in_buf set_out_buf set_wire arrivals log
         stored called advance set_ports received].
    rewrite He. cbn [app].
    destruct (Nat.eqb _ 4) eqn:Hlen; poll_leaf; right;
      (split; [exists [Call h CInWaiting]; unfold clears_input; by auto|]);
      (split; [intros msg Hin; simpl in Hin; intuition discriminate|]);
      (split; [reflexivity|]); cbn [env]; by rewrite Hlen.
Qed.

Lemma bind_Ret_inv {S A B} (m : M S A) (k : A -> M S B) s b s' :
  bind m k s = (Ret b, s') ->
  exists a s1, m s = (Ret a, s1) /\ k a s1 = (Ret b, s').
Proof.
  unfold bind. destruct (m s) as [[a|e] s1]; [|discriminate]. by eauto.
Qed.

(** The keys of a full status dict. *)
Definition all_keys : gset string := {[ "R1"; "R2"; "R3"; "R4" ]}.

Lemma decode_status_four b1 b2 b3 b4 :
  Controller.decode_status [b1; b2; b3; b4] =
  <["R4" := Controller.decode_byte b4]>
    (<["R3" := Controller.decode_byte b3]>
       (<["R2" := Controller.decode_byte b2]>
          (<["R1" := Controller.decode_byte b1]> ∅))).
Proof. reflexivity. Qed.

Lemma decode_byte_spec b :
  Controller.decode_byte b = if decide (b = 1) then "ON" else "OFF".
Proof.
  unfold Controller.decode_byte. destruct (Z.eqb_spec b 1), (decide (b = 1)); done.
Qed.

(** The dict decoded from four bytes has the four keys, and the byte at
    offset [i] decides the entry of channel [i + 1]. *)
Lemma decode_status_spec response :
  length response = 4%nat ->
  dom (Controller.decode_status response) = all_keys /\
  forall i b, response !! i = Some b ->
    Controller.decode_status response !! status_key (Z.of_nat i + 1)
    = Some (if decide (b = 1) then "ON" else "OFF").
Proof.
  destruct response as [|b1 [|b2 [|b3 [|b4 [|]]]]]; try discriminate. intros _.
  rewrite decode_status_four. split.
  - rewrite !dom_insert_L, dom_empty_L. unfold all_keys. set_solver.
  - intros i b Hi. rewrite <- decode_byte_spec.
    destruct i as [|[|[|[|i]]]]; simpl in Hi; try discriminate;
      injection Hi as <-.
    + change (status_key (Z.of_nat 0 + 1)) with "R1".
      repeat rewrite lookup_insert_ne by done. by rewrite lookup_insert_eq.
    + change (status_key (Z.of_nat 1 + 1)) with "R2".
      repeat rewrite lookup_insert_ne by done. by rewrite lookup_insert_eq.
    + change (status_key (Z.of_nat 2 + 1)) with "R3".
      repeat rewrite lookup_insert_ne by done. by rewrite lookup_insert_eq.
    + change (status_key (Z.of_nat 3 + 1)) with "R4".
      by rewrite lookup_insert_eq.
Qed.

(** Whatever the driver and the world are, [get_status] returns a dict,
    and that dict is empty or decoded from exactly four bytes. *)
Lemma get_status_total s :
  exists d s', Controller.get_status s = (Ret d, s') /\
    (d = ∅ \/ exists response, length response = 4%nat /\
                               d = Controller.decode_status response).
Proof.
  unfold Controller.get_status. rewrite bind_get.
  destruct (Controller.not_connected s); [by exists ∅, s; auto|].
  unfold try_except.
  match goal with |- context [match ?body s with _ => _ end] =>
    destruct (body s) as [[d|e] s'] eqn:Hb end.
  2:{ exists ∅, s'. by auto. }
  exists d, s'. split; [reflexivity|].
  do 11 (apply bind_Ret_inv in Hb as (? & ? & _ & Hb)).
  destruct (Nat.eqb _ 4) eqn:Hlen; injection Hb as <- <-; [|by left].
  right. eexists. split; [|reflexivity]. by apply Nat.eqb_eq.
Qed.

(** No fault is scheduled. *)
Definition quiet (w : World) : Prop := forall msg, ~ In (Some msg) (faults w).

(** C2: on a connected driver, when no call fails and the board delivers
    four bytes before the read times out, [get_status] writes the request
    frame [0xFF, 0x09, 0x00], flushes, waits, asks [read] for four bytes,
    and returns a dict with exactly the four keys in which the byte at
    offset [i] decides channel [i + 1]: "ON" if the byte is 1, "OFF" for
    any other value. *)
Theorem get_status_decodes s h p a rest r s' :
  Connected s h p -> quiet (env s) ->
  arrivals (env s) = a :: rest -> length a = 4%nat ->
  Controller.get_status s = (r, s') ->
  (exists pre, clears_input h pre /\
     trace (env s') =
       trace (env s) ++ pre ++ [Call h (CWrite status_request); Call h CFlush;
                                Sleep 300; Call h (CRead 4)]) /\
  exists d, r = Ret d /\ dom d = all_keys /\
    forall i b, a !! i = Some b ->
      d !! status_key (Z.of_nat i + 1)
      = Some (if decide (b = 1) then "ON" else "OFF").
Proof.
  intros (Hi & Hc & Hp & Ho) Hq Ha Hlen Hrun. destruct s as [c w]. simpl in *.
  pose proof (get_status_spec c w h p Hi Hc Hp Ho r s' Hrun)
    as (_ & new & p' & Ht & _ & [(_ & msg & pre & _ & Hin) | Hok]).
  { by destruct (Hq msg). }
  destruct Hok as ((pre & Hpre & ->) & _ & _ & Hr). simpl in Ht, Hr.
  rewrite Ha in Hr. simpl in Hr.
  rewrite (take_ge a 4) in Hr by lia. rewrite Hlen in Hr. simpl in Hr.
  split; [by exists pre|].
  destruct (decode_status_spec a Hlen) as (Hdom & Hget).
  exists (Controller.decode_status a). by auto.
Qed.

Lemma get_status_decodes_witness :
  (exists d, fst (Controller.get_status (sys0 [] [[1; 0; 1; 0]])) = Ret d /\
     d !! "R1" = Some "ON" /\ d !! "R2" = Some "OFF" /\
     d !! "R3" = Some "ON" /\ d !! "R4" = Some "OFF") /\
  (exists d, fst (Controller.get_status (sys0 [] [[0; 2; 255; 1]])) = Ret d /\
     d !! "R1" = Some "OFF" /\ d !! "R2" = Some "OFF" /\
     d !! "R3" = Some "OFF" /\ d !! "R4" = Some "ON").
Proof.
  split.
  - destruct (get_status_decodes (sys0 [] [[1; 0; 1; 0]]) 0 port0 [1; 0; 1; 0] []
                (fst (Controller.get_status (sys0 [] [[1; 0; 1; 0]])))
                (snd (Controller.get_status (sys0 [] [[1; 0; 1; 0]]))))
      as (_ & d & Hd & _ & Hl).
    + apply Connected_sys0.
    + intros msg [].
    + reflexivity.
    + reflexivity.
    + by destruct (Controller.get_status _).
    + exists d. split; [exact Hd|].
      split; [exact (Hl 0%nat 1 eq_refl)|]. split; [exact (Hl 1%nat 0 eq_refl)|].
      split; [exact (Hl 2%nat 1 eq_refl) | exact (Hl 3%nat 0 eq_refl)].
  - destruct (get_status_decodes (sys0 [] [[0; 2; 255; 1]]) 0 port0 [0; 2; 255; 1] []
                (fst (Controller.get_status (sys0 [] [[0; 2; 255; 1]])))
                (snd (Controller.get_status (sys0 [] [[0; 2; 255; 1]]))))
      as (_ & d & Hd & _ & Hl).
    + apply Connected_sys0.
    + intros msg [].
    + reflexivity.
    + reflexivity.
    + by destruct (Controller.get_status _).
    + exists d. split; [exact Hd|].
      split; [exact (Hl 0%nat 0 eq_refl)|]. split; [exact (Hl 1%nat 2 eq_refl)|].
      split; [exact (Hl 2%nat 255 eq_refl) | exact (Hl 3%nat 1 eq_refl)].
Defined.

(** C4: [get_status] never raises.  In every state it returns a dict that
    is empty or has all four keys, never a partial one: with the flag off
    it returns the empty dict and leaves driver and world untouched; on a
    connected driver it returns the empty dict when fewer than four bytes
    arrive before the timeout, and whenever one of its library calls
    raised. *)
Theorem get_status_never_raises s :
  exists d s', Controller.get_status s = (Ret d, s') /\
    (d = ∅ \/ dom d = all_keys) /\
    (is_connected (self s) = false -> d = ∅ /\ s' = s) /\
    (forall h p, Connected s h p ->
       (length (hd [] (arrivals (env s))) < 4)%nat -> d = ∅) /\
    (forall h p, Connected s h p ->
       forall new msg, trace (env s') = trace (env s) ++ new ->
                       In (Fault msg) new -> d = ∅).
Proof.
  destruct (get_status_total s) as (d & s' & Hrun & Hd).
  exists d, s'. split; [exact Hrun|]. split; [|split; [|split]].
  - destruct Hd as [-> | (response & Hlen & ->)]; [by left|].
    right. apply (decode_status_spec response Hlen).
  - intros Hi. revert Hrun. unfold Controller.get_status. rewrite bind_get.
    unfold Controller.not_connected. rewrite Hi. simpl. by intros [= <- <-].
  - intros h p (Hi & Hc & Hp & Ho) Hshort. destruct s as [c w]. simpl in *.
    pose proof (get_status_spec c w h p Hi Hc Hp Ho _ _ Hrun)
      as (_ & new & p' & _ & _ & [(Hr & _) | (_ & _ & _ & Hr)]).
    { by injection Hr. }
    simpl in Hr.
    assert (Hl : length (take 4 (hd [] (arrivals w))) <> 4%nat)
      by (rewrite length_take; lia).
    apply Nat.eqb_neq in Hl. rewrite Hl in Hr. by injection Hr.
  - intros h p (Hi & Hc & Hp & Ho) new msg Ht Hin. destruct s as [c w]. simpl in *.
    pose proof (get_status_spec c w h p Hi Hc Hp Ho _ _ Hrun)
      as (_ & new' & p' & Ht' & _ & [(Hr & _) | (_ & Hnf & _)]).
    { by injection Hr. }
    simpl in Ht'. rewrite Ht' in Ht. apply app_inv_head in Ht as <-.
    by destruct (Hnf msg).
Qed.

Lemma get_status_never_raises_witness :
  fst (Controller.get_status (sys0 [] [[1; 0]])) = Ret ∅ /\
  fst (Controller.get_status (sys0 [None; None; Some "device lost"] [[1; 0; 1; 0]]))
    = Ret ∅ /\
  Controller.get_status (mkSys (Controller.init "COM3" 9600 2500) (world0 [] []))
    = (Ret ∅, mkSys (Controller.init "COM3" 9600 2500) (world0 [] [])).
Proof.
  split; [|split].
  - destruct (get_status_never_raises (sys0 [] [[1; 0]]))
      as (d & s' & Hrun & _ & _ & Hshort & _).
    rewrite Hrun. simpl. f_equal.
    apply (Hshort 0%nat port0 (Connected_sys0 _ _)). simpl. lia.
  - destruct (get_status_never_raises
                (sys0 [None; None; Some "device lost"] [[1; 0; 1; 0]]))
      as (d & s' & Hrun & _ & _ & _ & Hio).
    rewrite Hrun. simpl. f_equal.
    apply (Hio 0%nat port0 (Connected_sys0 _ _)
             [Call 0 CInWaiting; Call 0 (CWrite status_request); Call 0 CFlush;
              Fault "device lost"] "device lost").
    + assert (Hs : s' = snd (Controller.get_status
                 (sys0 [None; None; Some "device lost"] [[1; 0; 1; 0]])))
        by (by rewrite Hrun).
      rewrite Hs. vm_compute. reflexivity.
    + simpl. tauto.
  - destruct (get_status_never_raises
                (mkSys (Controller.init "COM3" 9600 2500) (world0 [] [])))
      as (d & s' & Hrun & _ & Hoff & _).
    destruct (Hoff eq_refl) as [-> ->]. exact Hrun.
Defined.

(** ** Connecting and disconnecting *)

Definition with_connection (o : option nat) (c : RelayControllerStandalone)
  : RelayControllerStandalone :=
  mkController (com_port c) (baudrate c) (timeout c) o (is_connected c).

Definition with_flag (b : bool) (c : RelayControllerStandalone)
  : RelayControllerStandalone :=
  mkController (com_port c) (baudrate c) (timeout c) (connection c) b.

(** The port object [connect] creates. *)
Definition fresh_port (c : RelayControllerStandalone) : Serial :=
  mkSerial (com_port c) (baudrate c) EIGHTBITS STOPBITS_ONE PARITY_NONE
           (timeout c) true [] [] [].

(** The world after the constructor succeeded. *)
Definition opened (c : RelayControllerStandalone) (w : World) : World :=
  mkWorld (<[next_handle w := fresh_port c]> (ports w)) (S (next_handle w))
          (tail (faults w)) (arrivals w)
          (trace w ++ [Call (next_handle w) COpen]).

(** The world after [close] was called on [h], whether it raised or not. *)
Definition close_attempt (h : nat) (w : World) : World :=
  match pending w with
  | Some msg => log (Fault msg) (called h CClose w)
  | None => set_ports (alter (set_open false) h) (called h CClose w)
  end.

Lemma bind_modify {S B} (f : S -> S) (k : unit -> M S B) s :
  bind (modify f) k s = k tt (f s).
Proof. reflexivity. Qed.

Lemma ports_opened c w : ports (opened c w) !! next_handle w = Some (fresh_port c).
Proof. apply lookup_insert_eq. Qed.

(** Use what is known of a pending fault where the goal tests it. *)
Ltac know_pending Hf :=
  match type of Hf with
  | pending ?y = _ =>
      match goal with
      | |- context [match pending ?x with _ => _ end] =>
          change (pending x) with (pending y); rewrite Hf
      end
  end.

Lemma connect_try_run c w :
  Controller.connect_try (mkSys c w) =
    let h := next_handle w in
    let c1 := with_connection (Some h) c in
    match pending w with
    | Some m1 =>
        (Raise (SerialException m1), mkSys c (log (Fault m1) (called h COpen w)))
    | None =>
        let w1 := opened c w in
        match pending w1 with
        | Some m2 =>
            (Raise (SerialException m2),
             mkSys c1 (log (Fault m2) (called h CResetInput w1)))
        | None =>
            let w2 := stored h (fresh_port c) (called h CResetInput w1) in
            match pending w2 with
            | Some m3 =>
                (Raise (SerialException m3),
                 mkSys c1 (log (Fault m3) (called h CResetOutput w2)))
            | None =>
                (Ret true,
                 mkSys (with_flag true c1)
                   (log (Sleep 500)
                      (stored h (fresh_port c) (called h CResetOutput w2))))
            end
        end
    end.
Proof.
  unfold Controller.connect_try. rewrite bind_get. cbn [self].
  rewrite bind_io, Serial_run. cbv zeta.
  destruct (pending w) as [m1|]; [reflexivity|].
  unfold Controller.set_connection at 1. rewrite bind_modify. cbn [self env].
  erewrite bind_the_connection by reflexivity.
  rewrite bind_io.
  erewrite reset_input_buffer_run by (first [apply ports_opened | reflexivity]).
  unfold outcome_of.
  destruct (pending (opened c w)) as [m2|] eqn:Hf2; know_pending Hf2;
    [reflexivity|].
  erewrite bind_the_connection by reflexivity.
  rewrite bind_io.
  erewrite reset_output_buffer_run by (first [apply ports_stored | reflexivity]).
  unfold outcome_of.
  destruct (pending (stored _ _ (called _ CResetInput (opened c w))))
    as [m3|] eqn:Hf3; know_pending Hf3; reflexivity.
Qed.

Lemma try_close_run h c w :
  try_except (Controller.io (serial.close h)) (fun _ => ret tt) (mkSys c w)
  = (Ret tt, mkSys c (close_attempt h w)).
Proof.
  unfold try_except, close_attempt. rewrite io_run, close_run.
  by destruct (pending w).
Qed.

(** The exception [connect] raises for the cause [e]. *)
Definition connect_error (c : RelayControllerStandalone) (e : exn) : exn :=
  Exception ("Failed to connect to " +:+ com_port c +:+ ": " +:+ str e).

Lemma connect_except_run e c w :
  Controller.connect_except e (mkSys c w) =
    (Raise (connect_error c e),
     match connection c with
     | Some h => mkSys (with_connection None c) (close_attempt h w)
     | None => mkSys c w
     end).
Proof.
  unfold Controller.connect_except. rewrite bind_get. cbn [self].
  destruct (connection c) as [h|]; [|reflexivity].
  rewrite bind_assoc. unfold bind at 1. rewrite try_close_run. reflexivity.
Qed.

Lemma disconnect_run c w :
  Controller.disconnect (mkSys c w) =
    match connection c with
    | Some h =>
        if serial.port_is_open h w then
          match pending w with
          | Some msg =>
              (Raise (SerialException msg),
               mkSys c (log (Fault msg) (called h CClose w)))
          | None =>
              (Ret tt,
               mkSys (with_flag false c)
                     (set_ports (alter (set_open false) h) (called h CClose w)))
          end
        else (Ret tt, mkSys c w)
    | None => (Ret tt, mkSys c w)
    end.
Proof.
  unfold Controller.disconnect. rewrite bind_get. cbn [self env].
  destruct (connection c) as [h|]; [|reflexivity].
  destruct (serial.port_is_open h w); [|reflexivity].
  rewrite bind_io, close_run. by destruct (pending w).
Qed.

(** What the cleanup of a failed [connect] leaves behind, once [close]
    was called on the port [h] it had opened: the events it adds and
    whether the port is still open.  [next] is the entry of the fault
    script that [close] consumes. *)
Definition cleanup_events (h : nat) (next : option string) : list event :=
  match next with
  | Some msg => [Call h CClose; Fault msg]
  | None => [Call h CClose]
  end.

Definition left_open (next : option string) : bool :=
  match next with
  | Some _ => true
  | None => false
  end.

Lemma close_attempt_trace h w :
  trace (close_attempt h w) = trace w ++ cleanup_events h (pending w).
Proof.
  unfold close_attempt. destruct (pending w) as [msg|]; simpl; [|reflexivity].
  by rewrite <- app_assoc.
Qed.

Lemma close_attempt_open h p w :
  ports w !! h = Some p -> is_open p = true ->
  serial.port_is_open h (close_attempt h w) = left_open (pending w).
Proof.
  intros Hp Ho. unfold close_attempt, serial.port_is_open.
  destruct (pending w) as [msg|]; simpl.
  - by rewrite Hp.
  - by rewrite lookup_alter_eq, Hp.
Qed.

Lemma close_attempt_handle h w :
  next_handle (close_attempt h w) = next_handle w.
Proof. unfold close_attempt. by destruct (pending w). Qed.

Lemma pending_hd w : pending w = hd None (faults w).
Proof. unfold pending. by destruct (faults w). Qed.

(** Decide the next test of the fault script where the script is known. *)
Ltac pending_is v :=
  match goal with
  | |- context [match pending ?x with _ => _ end] =>
      change (pending x) with v; cbv iota
  end.

(** C7, as the claim states it, fails: when the port was opened and
    [reset_input_buffer] raises, the cleanup calls [close]; if that
    [close] raises too, its failure is swallowed, the handle is dropped
    and the port stays open. *)
Lemma failed_cleanup_leaves_port_open :
  let s := mkSys (Controller.init "COM3" 9600 2500)
                 (mkWorld ∅ 0 [None; Some "busy"; Some "again"] [] []) in
  let r := Controller.connect s in
  fst r = Raise (Exception "Failed to connect to COM3: busy") /\
  ports (env s) !! 0%nat = None /\
  serial.port_is_open 0 (env (snd r)) = true /\
  connection (self (snd r)) = None /\
  trace (env (snd r)) =
    [Call 0 COpen; Call 0 CResetInput; Fault "busy";
     Call 0 CClose; Fault "again"].
Proof. vm_compute. by repeat split. Qed.

(** C7, amended: when [connect], called on a driver whose flag is off,
    fails to open or to set up the port, the flag stays off, the handle
    is reset to [None], and the exception carries the device name and
    the cause, which is the first fault met by the constructor,
    [reset_input_buffer] or [reset_output_buffer].  When the constructor
    raised, no port was opened.  Otherwise [close] is called on the port
    this call opened, as the last library call: the port ends closed,
    unless that [close] itself raised, a failure the cleanup swallows,
    and then the port stays open. *)
Theorem connect_failure s e s' :
  is_connected (self s) = false ->
  Controller.connect s = (Raise e, s') ->
  let h := next_handle (env s) in
  is_connected (self s') = false /\ connection (self s') = None /\
  exists k cause rest,
    (k <= 2)%nat /\
    faults (env s) = replicate k None ++ Some cause :: rest /\
    e = Exception ("Failed to connect to " +:+ com_port (self s)
                   +:+ ": " +:+ cause) /\
    match k with
    | O =>
        next_handle (env s') = h /\
        trace (env s') =
          trace (env s) ++ [Call h COpen; Fault cause]
          ++ match connection (self s) with
             | Some h0 => cleanup_events h0 (hd None rest)
             | None => []
             end /\
        (connection (self s) = None -> ports (env s') = ports (env s))
    | S _ =>
        next_handle (env s') = S h /\
        trace (env s') =
          trace (env s)
          ++ take (S k) [Call h COpen; Call h CResetInput; Call h CResetOutput]
          ++ Fault cause :: cleanup_events h (hd None rest) /\
        serial.port_is_open h (env s') = left_open (hd None rest)
    end.
Proof.
  destruct s as [c [ps nh fs arr tr]]. cbn [self env]. intros Hi.
  unfold Controller.connect, try_except. rewrite connect_try_run. cbv zeta.
  destruct fs as [|[m1|] fs]; [repeat pending_is (@None string); discriminate| |].
  { (* the constructor raised *)
    pending_is (Some m1). rewrite connect_except_run. intros [= <- <-].
    destruct (connection c) as [h0|] eqn:Hc; cbn [self env].
    - split; [exact Hi|]. split; [reflexivity|].
      exists 0%nat, m1, fs. split; [lia|]. split; [reflexivity|].
      split; [reflexivity|]. split; [by rewrite close_attempt_handle|].
      split; [|discriminate]. rewrite close_attempt_trace, pending_hd.
      cbn [trace log called advance faults tail]. by rewrite <- !app_assoc.
    - split; [exact Hi|]. split; [exact Hc|].
      exists 0%nat, m1, fs. split; [lia|]. split; [reflexivity|].
      split; [reflexivity|]. split; [reflexivity|]. split; [|done].
      cbn [trace log called advance]. by rewrite <- !app_assoc. }
  pending_is (@None string).
  destruct fs as [|[m2|] fs]; [repeat pending_is (@None string); discriminate| |].
  { (* [reset_input_buffer] raised *)
    pending_is (Some m2). rewrite connect_except_run. intros [= <- <-].
    cbn [connection with_connection self env].
    split; [exact Hi|]. split; [reflexivity|].
    exists 1%nat, m2, fs. split; [lia|]. split; [reflexivity|].
    split; [reflexivity|]. split; [by rewrite close_attempt_handle|].
    split.
    - rewrite close_attempt_trace, pending_hd.
      cbn [trace log called advance faults tail take opened].
      by rewrite <- !app_assoc.
    - erewrite close_attempt_open;
        [by rewrite pending_hd | apply lookup_insert_eq | reflexivity]. }
  pending_is (@None string).
  destruct fs as [|[m3|] fs]; [pending_is (@None string); discriminate|
                               |pending_is (@None string); discriminate].
  (* [reset_output_buffer] raised *)
  pending_is (Some m3). rewrite connect_except_run. intros [= <- <-].
  cbn [connection with_connection self env].
  split; [exact Hi|]. split; [reflexivity|].
  exists 2%nat, m3, fs. split; [lia|]. split; [reflexivity|].
  split; [reflexivity|]. split; [by rewrite close_attempt_handle|].
  split.
  - rewrite close_attempt_trace, pending_hd.
    cbn [trace log called advance faults tail take opened stored set_ports].
    by rewrite <- !app_assoc.
  - erewrite close_attempt_open;
      [by rewrite pending_hd | apply lookup_insert_eq | reflexivity].
Qed.

Lemma connect_failure_witness :
  let s := mkSys (Controller.init "COM9" 9600 2500)
                 (mkWorld ∅ 0 [None; Some "Input/output error"] [] []) in
  let s' := snd (Controller.connect s) in
  is_connected (self s') = false /\ connection (self s') = None /\
  serial.port_is_open 0 (env s') = false /\
  trace (env s') =
    [Call 0 COpen; Call 0 CResetInput; Fault "Input/output error"; Call 0 CClose].
Proof.
  intros s s'.
  destruct (connect_failure s
              (Exception "Failed to connect to COM9: Input/output error") s')
    as (Hflag & Hconn & k & cause & rest & _ & Hfs & _ & Hk).
  - reflexivity.
  - vm_compute. reflexivity.
  - split; [exact Hflag|]. split; [exact Hconn|].
    destruct k as [|[|k]]; cbn [replicate app] in Hfs; try discriminate Hfs.
    injection Hfs as <- <-. destruct Hk as (_ & Ht & Ho). by split.
Defined.


(** The driver is disconnected: the flag is off and the handle, if any,
    refers to a closed port. *)
Definition Disconnected (s : Sys) : Prop :=
  is_connected (self s) = false /\
  forall h, connection (self s) = Some h -> serial.port_is_open h (env s) = false.

Lemma port_closed_after_close h w :
  serial.port_is_open h (set_ports (alter (set_open false) h) (called h CClose w))
  = false.
Proof.
  unfold serial.port_is_open. simpl. rewrite lookup_alter_eq.
  by destruct (ports w !! h).
Qed.

(** On a connected driver a failing [close] makes [disconnect] raise, with
    the flag still on. *)
Lemma disconnect_close_raises s h p msg :
  Connected s h p -> pending (env s) = Some msg ->
  Controller.disconnect s =
    (Raise (SerialException msg),
     mkSys (self s) (log (Fault msg) (called h CClose (env s)))).
Proof.
  destruct s as [c w]. intros (_ & Hc & Hp & Ho) Hf. simpl in *.
  rewrite disconnect_run, Hc. unfold serial.port_is_open. by rewrite Hp, Ho, Hf.
Qed.

(** C6 (what the code does where the claim fails): on a connected driver
    whose port fails to close, [disconnect] raises the library's
    exception instead of swallowing it, and the flag stays on. *)
Theorem disconnect_propagates_close_failure :
  let r := Controller.disconnect (sys0 [Some "Input/output error"] []) in
  fst r = Raise (SerialException "Input/output error") /\
  is_connected (self (snd r)) = true /\
  trace (env (snd r)) = [Call 0 CClose; Fault "Input/output error"].
Proof.
  cbv zeta.
  rewrite (disconnect_close_raises (sys0 [Some "Input/output error"] []) 0 port0
             "Input/output error" (Connected_sys0 _ _) eq_refl).
  by repeat split.
Qed.

(** C8 (what the code does where the claim fails): on a connected driver
    whose port fails to close, [disconnect] raises and leaves the flag on
    and the handle in place, so that a second [disconnect] calls [close]
    on the same port again and, when that fails too, raises again: two
    calls in a row give two errors and two [close] calls on one handle. *)
Theorem disconnect_twice_closes_twice s h p m1 m2 rest :
  Connected s h p ->
  faults (env s) = Some m1 :: Some m2 :: rest ->
  let r1 := Controller.disconnect s in
  let r2 := Controller.disconnect (snd r1) in
  fst r1 = Raise (SerialException m1) /\
  fst r2 = Raise (SerialException m2) /\
  Connected (snd r2) h p /\
  trace (env (snd r2)) =
    trace (env s) ++ [Call h CClose; Fault m1; Call h CClose; Fault m2].
Proof.
  intros Hs Hfs. cbv zeta.
  assert (Hf1 : pending (env s) = Some m1) by (unfold pending; by rewrite Hfs).
  rewrite (disconnect_close_raises s h p m1 Hs Hf1). cbn [fst snd].
  set (s1 := mkSys (self s) (log (Fault m1) (called h CClose (env s)))).
  assert (Hs1 : Connected s1 h p).
  { destruct Hs as (Hi & Hc & Hp & Ho). by repeat split. }
  assert (Hf2 : pending (env s1) = Some m2).
  { unfold pending. cbn [s1 env faults log called advance]. by rewrite Hfs. }
  rewrite (disconnect_close_raises s1 h p m2 Hs1 Hf2). cbn [fst snd].
  split; [reflexivity|]. split; [reflexivity|]. split.
  - destruct Hs as (Hi & Hc & Hp & Ho). by repeat split.
  - cbn [env s1 trace log called advance]. by rewrite <- !app_assoc.
Qed.

Lemma disconnect_twice_closes_twice_witness :
  let s := sys0 [Some "Input/output error"; Some "Bad file descriptor"] [] in
  let r1 := Controller.disconnect s in
  let r2 := Controller.disconnect (snd r1) in
  fst r1 = Raise (SerialException "Input/output error") /\
  fst r2 = Raise (SerialException "Bad file descriptor") /\
  is_connected (self (snd r2)) = true /\
  trace (env (snd r2)) =
    [Call 0 CClose; Fault "Input/output error";
     Call 0 CClose; Fault "Bad file descriptor"].
Proof.
  intros s.
  destruct (disconnect_twice_closes_twice s 0 port0 "Input/output error"
              "Bad file descriptor" [] (Connected_sys0 _ _) eq_refl)
    as (H1 & H2 & Hc & Ht).
  split; [exact H1|]. split; [exact H2|]. split; [apply Hc | exact Ht].
Defined.


(** ** The flag and the handle *)

(** A computation that leaves the controller object as it found it. *)
Definition keeps_self {A} (m : M Sys A) : Prop :=
  forall s, self (snd (m s)) = self s.

Create HintDb keeps.

Lemma keeps_ret {A} (a : A) : keeps_self (ret a).
Proof. by intros s. Qed.

Lemma keeps_raise {A} (e : exn) : keeps_self (@raise Sys A e).
Proof. by intros s. Qed.

Lemma keeps_io {A} (m : M World A) : keeps_self (Controller.io m).
Proof. intros [c w]. by rewrite io_run. Qed.

Lemma keeps_the_connection : keeps_self Controller.the_connection.
Proof.
  intros [c w]. unfold Controller.the_connection. rewrite bind_get. cbn [self].
  by destruct (connection c).
Qed.

Lemma keeps_bind {A B} (m : M Sys A) (k : A -> M Sys B) :
  keeps_self m -> (forall a, keeps_self (k a)) -> keeps_self (bind m k).
Proof.
  intros Hm Hk s. unfold bind. specialize (Hm s).
  destruct (m s) as [[a|e] s1]; simpl in *; [|exact Hm].
  by rewrite Hk.
Qed.

Lemma keeps_bind_get {B} (k : Sys -> M Sys B) :
  (forall s0, keeps_self (k s0)) -> keeps_self (bind get k).
Proof. intros Hk s. rewrite bind_get. apply Hk. Qed.

Lemma keeps_try {A} (body : M Sys A) (handler : exn -> M Sys A) :
  keeps_self body -> (forall e, keeps_self (handler e)) ->
  keeps_self (try_except body handler).
Proof.
  intros Hb Hh s. unfold try_except. specialize (Hb s).
  destruct (body s) as [[a|e] s1]; simpl in *; [exact Hb|].
  by rewrite Hh.
Qed.

Lemma keeps_if {A} (b : bool) (m1 m2 : M Sys A) :
  keeps_self m1 -> keeps_self m2 -> keeps_self (if b then m1 else m2).
Proof. by destruct b. Qed.

Lemma keeps_bytes l : keeps_self (@bytes Sys l).
Proof. unfold bytes. apply keeps_if; [apply keeps_ret | apply keeps_raise]. Qed.

#[local] Hint Resolve keeps_ret keeps_raise keeps_io keeps_the_connection
  keeps_bind keeps_bind_get keeps_try keeps_if keeps_bytes : keeps.

Lemma keeps_send_command ch v : keeps_self (Controller.send_command ch v).
Proof. unfold Controller.send_command. auto 30 with keeps. Qed.

#[local] Hint Resolve keeps_send_command : keeps.

Lemma keeps_setChannel ch on : keeps_self (Controller.setChannel ch on).
Proof.
  unfold Controller.setChannel, Controller.turn_on, Controller.turn_off.
  destruct on; auto 30 with keeps.
Qed.

Lemma keeps_get_status : keeps_self Controller.get_status.
Proof. unfold Controller.get_status. auto 40 with keeps. Qed.

(** The two outcomes of [connect]: it returns with the flag on and a
    handle, or it raises with the handle reset and the flag as it was. *)
Lemma connect_outcome c w :
  let r := Controller.connect (mkSys c w) in
  (exists b h, fst r = Ret b /\ is_connected (self (snd r)) = true /\
               connection (self (snd r)) = Some h) \/
  (exists e, fst r = Raise e /\ is_connected (self (snd r)) = is_connected c /\
             connection (self (snd r)) = None).
Proof.
  cbv zeta. unfold Controller.connect, try_except. rewrite connect_try_run.
  cbv zeta. destruct (pending w) as [m1|].
  { right. rewrite connect_except_run. eexists. split; [reflexivity|].
    by destruct (connection c) eqn:Hc. }
  destruct (pending (opened c w)) as [m2|].
  { right. rewrite connect_except_run. eexists. by split. }
  destruct (pending (stored _ _ _)) as [m3|].
  { right. rewrite connect_except_run. eexists. by split. }
  left. by exists true, (next_handle w).
Qed.

(** Whenever the flag is on, the handle is not null. *)
Definition handle_invariant (c : RelayControllerStandalone) : Prop :=
  is_connected c = true -> exists h, connection c = Some h.

(** C10, as the claim states it, fails: a [connect] that fails on a
    connected driver resets the handle and leaves the flag on. *)
Lemma failed_reconnect_breaks_invariant :
  handle_invariant (self (sys0 [Some "Access is denied"] [])) /\
  ~ handle_invariant
      (self (snd (Controller.connect (sys0 [Some "Access is denied"] [])))).
Proof.
  split.
  - intros _. by exists 0%nat.
  - intros H. destruct (H eq_refl) as (h & Hh). discriminate Hh.
Qed.

(** C10, amended: the invariant holds after construction and is kept by
    [connect] called with the flag off (whether it succeeds or fails), by
    every [connect] that succeeds, and by [disconnect], [turn_on],
    [turn_off] and [get_status]; a failed [connect] resets the handle and
    leaves the flag as it was; and in every state with a null handle the
    commands take their guard and touch nothing, so no command path
    dereferences a null handle. *)
Theorem handle_invariant_kept :
  (forall port baud tmo, handle_invariant (Controller.init port baud tmo)) /\
  (forall s, is_connected (self s) = false ->
     handle_invariant (self (snd (Controller.connect s)))) /\
  (forall s b s', Controller.connect s = (Ret b, s') ->
     handle_invariant (self s')) /\
  (forall s e s', Controller.connect s = (Raise e, s') ->
     connection (self s') = None /\
     is_connected (self s') = is_connected (self s)) /\
  (forall s, handle_invariant (self s) ->
     handle_invariant (self (snd (Controller.disconnect s)))) /\
  (forall s ch on, handle_invariant (self s) ->
     handle_invariant (self (snd (Controller.setChannel ch on s)))) /\
  (forall s, handle_invariant (self s) ->
     handle_invariant (self (snd (Controller.get_status s)))) /\
  (forall s ch on, connection (self s) = None ->
     Controller.setChannel ch on s = (Raise not_connected_error, s) /\
     Controller.get_status s = (Ret ∅, s) /\
     Controller.disconnect s = (Ret tt, s)).
Proof.
  repeat apply conj.
  - intros port baud tmo H. discriminate H.
  - intros [c w] Hi. cbn [self] in Hi.
    destruct (connect_outcome c w) as [(b & h & _ & _ & Hc) | (e & _ & Hf & _)].
    + intros _. by exists h.
    + intros H. rewrite Hf, Hi in H. discriminate H.
  - intros [c w] b s' Hrun.
    destruct (connect_outcome c w) as [(b' & h & _ & _ & Hc) | (e & He & _)];
      rewrite Hrun in *; simpl in *.
    + intros _. by exists h.
    + discriminate He.
  - intros [c w] e s' Hrun.
    destruct (connect_outcome c w) as [(b' & h & Hb & _) | (e' & _ & Hf & Hc)];
      rewrite Hrun in *; simpl in *; [discriminate Hb | by split].
  - intros [c w] Hinv. rewrite disconnect_run.
    destruct (connection c) as [h|] eqn:Hc; [|exact Hinv].
    destruct (serial.port_is_open h w); [|exact Hinv].
    destruct (pending w); [exact Hinv|]. intros H. discriminate H.
  - intros s ch on Hinv. by rewrite keeps_setChannel.
  - intros s Hinv. by rewrite keeps_get_status.
  - intros [c w] ch on Hc. cbn [self] in Hc. split; [|split].
    + unfold Controller.setChannel, Controller.turn_on, Controller.turn_off.
      destruct on; rewrite bind_get; unfold Controller.not_connected;
        cbn [self]; rewrite Hc; by rewrite orb_true_r.
    + unfold Controller.get_status. rewrite bind_get.
      unfold Controller.not_connected. cbn [self]. rewrite Hc.
      by rewrite orb_true_r.
    + by rewrite disconnect_run, Hc.
Qed.

Lemma handle_invariant_kept_witness :
  handle_invariant
    (self (snd (Controller.connect
       (mkSys (Controller.init "COM9" 9600 2500)
              (mkWorld ∅ 0 [None; Some "Input/output error"] [] []))))) /\
  handle_invariant (self (snd (Controller.disconnect (sys0 [] [])))) /\
  handle_invariant (self (snd (Controller.setChannel 1 true (sys0 [] [])))) /\
  handle_invariant (self (snd (Controller.get_status (sys0 [] [])))).
Proof.
  destruct handle_invariant_kept as (_ & Hconn & _ & _ & Hdis & Hset & Hget & _).
  assert (H0 : handle_invariant (self (sys0 [] [])))
    by (intros _; by exists 0%nat).
  split; [|split; [|split]].
  - apply Hconn. reflexivity.
  - apply Hdis. exact H0.
  - apply (Hset (sys0 [] []) 1 true). exact H0.
  - apply Hget. exact H0.
Defined.

(** * Further properties *)

(** ** How the commands change the world *)

(** An event a command may leave in the trace: a call the predicate
    [allowed] admits, the fault of such a call, or a sleep. *)
Definition event_ok (allowed : call -> Prop) (e : event) : Prop :=
  match e with
  | Call _ c => allowed c
  | Fault _ | Sleep _ => True
  end.

(** [w'] comes from [w] by library calls that [allowed] admits and that
    neither open nor close a port: the fault script was consumed from
    the front, the trace grew by admitted events, no handle was
    allocated, and every port is open or closed as before. *)
Definition evolves (allowed : call -> Prop) (w w' : World) : Prop :=
  (exists k, faults w' = drop k (faults w)) /\
  (exists new, trace w' = trace w ++ new /\ Forall (event_ok allowed) new) /\
  next_handle w' = next_handle w /\
  (forall h, serial.port_is_open h w' = serial.port_is_open h w).

Lemma evolves_refl allowed w : evolves allowed w w.
Proof.
  repeat split.
  - by exists 0%nat.
  - exists []. by rewrite app_nil_r.
Qed.

Lemma evolves_trans allowed w1 w2 w3 :
  evolves allowed w1 w2 -> evolves allowed w2 w3 -> evolves allowed w1 w3.
Proof.
  intros ((k1 & Hf1) & (n1 & Ht1 & Ha1) & Hn1 & Ho1)
         ((k2 & Hf2) & (n2 & Ht2 & Ha2) & Hn2 & Ho2).
  repeat split.
  - exists (k1 + k2)%nat. by rewrite Hf2, Hf1, drop_drop.
  - exists (n1 ++ n2). split; [by rewrite Ht2, Ht1, app_assoc|].
    by apply Forall_app.
  - congruence.
  - intros h. by rewrite Ho2, Ho1.
Qed.

Lemma evolves_weaken (allowed allowed' : call -> Prop) w w' :
  (forall c, allowed c -> allowed' c) ->
  evolves allowed w w' -> evolves allowed' w w'.
Proof.
  intros Hsub (Hf & (new & Ht & Ha) & Hn & Ho). repeat split; try done.
  exists new. split; [done|]. eapply Forall_impl; [exact Ha|].
  intros [h c| |]; simpl; auto.
Qed.

Lemma evolves_quiet allowed w w' : evolves allowed w w' -> quiet w -> quiet w'.
Proof.
  intros ((k & Hf) & _) Hq msg Hin. apply (Hq msg).
  rewrite Hf in Hin. apply list_elem_of_In in Hin. apply list_elem_of_In.
  by apply (subseteq_drop k).
Qed.

Lemma evolves_called allowed h c w :
  allowed c -> evolves allowed w (called h c w).
Proof.
  intros Hc. repeat split.
  - exists 1%nat. simpl. by destruct (faults w).
  - exists [Call h c]. split; [reflexivity|]. by constructor.
Qed.

Lemma evolves_fault allowed msg w : evolves allowed w (log (Fault msg) w).
Proof.
  repeat split.
  - by exists 0%nat.
  - exists [Fault msg]. split; [reflexivity|]. by constructor.
Qed.

Lemma evolves_sleep allowed ms w : evolves allowed w (log (Sleep ms) w).
Proof.
  repeat split.
  - by exists 0%nat.
  - exists [Sleep ms]. split; [reflexivity|]. by constructor.
Qed.

Lemma evolves_received allowed w : evolves allowed w (received w).
Proof.
  repeat split.
  - by exists 0%nat.
  - exists []. by rewrite app_nil_r.
Qed.

(** Storing a port that is open exactly when the stored-over one is. *)
Lemma evolves_stored allowed h p p' w :
  ports w !! h = Some p -> is_open p' = is_open p ->
  evolves allowed w (stored h p' w).
Proof.
  intros Hp Ho. repeat split.
  - by exists 0%nat.
  - exists []. by rewrite app_nil_r.
  - intros h'. unfold serial.port_is_open, stored. simpl.
    destruct (decide (h = h')) as [<-|Hne].
    + by rewrite lookup_insert_eq, Hp.
    + by rewrite lookup_insert_ne.
Qed.

Lemma fail_evolves {A} allowed msg w :
  evolves allowed w (snd (@serial.fail A msg w)).
Proof. apply evolves_fault. Qed.

(** Every method of a port other than [close] evolves the world. *)
Lemma method_evolves {A} allowed h c (body : Serial -> M World (A * Serial)) w :
  allowed c ->
  (forall p w0, exists a p' w1,
      body p w0 = (Ret (a, p'), w1) /\ is_open p' = is_open p /\
      ports w1 = ports w0 /\ evolves allowed w0 w1) ->
  evolves allowed w (snd (serial.method h c body w)).
Proof.
  intros Hc Hbody.
  eapply evolves_trans; [apply (evolves_called allowed h c w Hc)|].
  unfold serial.method, bind, modify, pop_fault, get. simpl.
  change (pending (log (Call h c) w)) with (pending w).
  change (advance (log (Call h c) w)) with (called h c w).
  destruct (pending w) as [msg|]; [apply fail_evolves|].
  cbv beta.
  destruct (ports (called h c w) !! h) as [p|] eqn:Hp; [|apply fail_evolves].
  destruct (is_open p) eqn:Ho; [|apply fail_evolves].
  destruct (Hbody p (called h c w)) as (a & p' & w1 & -> & Ho' & Hports & Hev).
  simpl. eapply evolves_trans; [exact Hev|].
  apply (evolves_stored allowed h p p'); [by rewrite Hports | by rewrite Ho'].
Qed.

Lemma pure_body {A} allowed (a : A) (p p' : Serial) (w0 : World) :
  is_open p' = is_open p ->
  exists a0 p0 w1,
    @ret World _ (a, p') w0 = (Ret (a0, p0), w1) /\ is_open p0 = is_open p /\
    ports w1 = ports w0 /\ evolves allowed w0 w1.
Proof.
  intros Ho. exists a, p', w0. split; [reflexivity|]. split; [done|].
  split; [done|]. apply evolves_refl.
Qed.

Section SerialEvolves.

Variable allowed : call -> Prop.
Variables (h : nat) (w : World).

Lemma reset_input_buffer_evolves :
  allowed CResetInput -> evolves allowed w (snd (serial.reset_input_buffer h w)).
Proof. intros. apply method_evolves; [done|]. intros. by apply pure_body. Qed.

Lemma reset_output_buffer_evolves :
  allowed CResetOutput -> evolves allowed w (snd (serial.reset_output_buffer h w)).
Proof. intros. apply method_evolves; [done|]. intros. by apply pure_body. Qed.

Lemma out_waiting_evolves :
  allowed COutWaiting -> evolves allowed w (snd (serial.out_waiting h w)).
Proof. intros. apply method_evolves; [done|]. intros. by apply pure_body. Qed.

Lemma in_waiting_evolves :
  allowed CInWaiting -> evolves allowed w (snd (serial.in_waiting h w)).
Proof. intros. apply method_evolves; [done|]. intros. by apply pure_body. Qed.

Lemma write_evolves data :
  allowed (CWrite data) -> evolves allowed w (snd (serial.write h data w)).
Proof. intros. apply method_evolves; [done|]. intros. by apply pure_body. Qed.

Lemma flush_evolves :
  allowed CFlush -> evolves allowed w (snd (serial.flush h w)).
Proof. intros. apply method_evolves; [done|]. intros. by apply pure_body. Qed.

Lemma read_evolves size :
  allowed (CRead size) -> evolves allowed w (snd (serial.read h size w)).
Proof.
  intros. apply method_evolves; [done|]. intros p w0.
  eexists _, _, _. split; [reflexivity|]. split; [reflexivity|].
  split; [reflexivity|]. apply (evolves_received allowed w0).
Qed.

Lemma sleep_evolves ms : evolves allowed w (snd (time.sleep ms w)).
Proof. apply evolves_sleep. Qed.

End SerialEvolves.

(** A controller computation all of whose library calls are admitted by
    [allowed] and evolve the world. *)
Definition steps_by (allowed : call -> Prop) {A} (m : M Sys A) : Prop :=
  forall s, evolves allowed (env s) (env (snd (m s))).

Section Steps.

Variable allowed : call -> Prop.

Lemma steps_ret {A} (a : A) : steps_by allowed (ret a).
Proof. intros s. apply evolves_refl. Qed.

Lemma steps_raise {A} (e : exn) : steps_by allowed (@raise Sys A e).
Proof. intros s. apply evolves_refl. Qed.

Lemma steps_io {A} (m : M World A) :
  (forall w, evolves allowed w (snd (m w))) -> steps_by allowed (Controller.io m).
Proof. intros Hm [c w]. rewrite io_run. apply Hm. Qed.

Lemma steps_the_connection : steps_by allowed Controller.the_connection.
Proof.
  intros [c w]. unfold Controller.the_connection. rewrite bind_get. cbn [self].
  destruct (connection c); apply evolves_refl.
Qed.

Lemma steps_bind {A B} (m : M Sys A) (k : A -> M Sys B) :
  steps_by allowed m -> (forall a, steps_by allowed (k a)) ->
  steps_by allowed (bind m k).
Proof.
  intros Hm Hk s. unfold bind. specialize (Hm s).
  destruct (m s) as [[a|e] s1]; simpl in *; [|exact Hm].
  eapply evolves_trans; [exact Hm | apply Hk].
Qed.

Lemma steps_bind_get {B} (k : Sys -> M Sys B) :
  (forall s0, steps_by allowed (k s0)) -> steps_by allowed (bind get k).
Proof. intros Hk s. rewrite bind_get. apply Hk. Qed.

Lemma steps_try {A} (body : M Sys A) (handler : exn -> M Sys A) :
  steps_by allowed body -> (forall e, steps_by allowed (handler e)) ->
  steps_by allowed (try_except body handler).
Proof.
  intros Hb Hh s. unfold try_except. specialize (Hb s).
  destruct (body s) as [[a|e] s1]; simpl in *; [exact Hb|].
  eapply evolves_trans; [exact Hb | apply Hh].
Qed.

Lemma steps_if {A} (b : bool) (m1 m2 : M Sys A) :
  steps_by allowed m1 -> steps_by allowed m2 ->
  steps_by allowed (if b then m1 else m2).
Proof. by destruct b. Qed.

Lemma steps_bytes l : steps_by allowed (@bytes Sys l).
Proof. unfold bytes. apply steps_if; [apply steps_ret | apply steps_raise]. Qed.

End Steps.

Create HintDb steps.

#[local] Hint Resolve steps_ret steps_raise steps_io steps_the_connection
  steps_bind steps_bind_get steps_try steps_if steps_bytes
  reset_input_buffer_evolves reset_output_buffer_evolves out_waiting_evolves
  in_waiting_evolves write_evolves flush_evolves read_evolves sleep_evolves
  : steps.

(** The library calls of a relay command, and those of a status query. *)
Definition command_call (c : call) : Prop :=
  match c with
  | COutWaiting | CResetOutput | CWrite _ | CFlush => True
  | _ => False
  end.

Definition status_call (c : call) : Prop :=
  match c with
  | CInWaiting | CResetInput | CWrite _ | CFlush | CRead _ => True
  | _ => False
  end.

#[local] Hint Extern 1 (command_call _) => exact I : steps.
#[local] Hint Extern 1 (status_call _) => exact I : steps.

Lemma steps_send_command ch v :
  steps_by command_call (Controller.send_command ch v).
Proof. unfold Controller.send_command. auto 30 with steps. Qed.

#[local] Hint Resolve steps_send_command : steps.

Lemma steps_setChannel ch on : steps_by command_call (Controller.setChannel ch on).
Proof.
  unfold Controller.setChannel, Controller.turn_on, Controller.turn_off.
  destruct on; auto 30 with steps.
Qed.

Lemma steps_get_status : steps_by status_call Controller.get_status.
Proof. unfold Controller.get_status. auto 40 with steps. Qed.

(** X1: [setChannel], in every state and whatever the transport does,
    leaves the controller object as it is and only ever calls
    [out_waiting], [reset_output_buffer], [write] and [flush]: it never
    reads, never clears the input buffer, never opens or closes a port,
    and every port stays open or closed as it was. *)
Theorem setChannel_touches_only_output s ch on :
  let s' := snd (Controller.setChannel ch on s) in
  self s' = self s /\
  (exists new, trace (env s') = trace (env s) ++ new /\
               forall h c, In (Call h c) new -> command_call c) /\
  next_handle (env s') = next_handle (env s) /\
  forall h, serial.port_is_open h (env s') = serial.port_is_open h (env s).
Proof.
  cbv zeta. split; [apply keeps_setChannel|].
  destruct (steps_setChannel ch on s) as (_ & (new & Ht & Ha) & Hn & Ho).
  split; [|by split]. exists new. split; [exact Ht|].
  intros h c Hin. rewrite Forall_forall in Ha.
  apply list_elem_of_In in Hin. apply (Ha _ Hin).
Qed.

(** X2: [get_status], in every state and whatever the transport does,
    leaves the controller object as it is and only ever calls
    [in_waiting], [reset_input_buffer], [write], [flush] and [read]: it
    never clears the output buffer, never opens or closes a port, and
    every port stays open or closed as it was. *)
Theorem get_status_touches_only_io s :
  let s' := snd (Controller.get_status s) in
  self s' = self s /\
  (exists new, trace (env s') = trace (env s) ++ new /\
               forall h c, In (Call h c) new -> status_call c) /\
  next_handle (env s') = next_handle (env s) /\
  forall h, serial.port_is_open h (env s') = serial.port_is_open h (env s).
Proof.
  cbv zeta. split; [apply keeps_get_status|].
  destruct (steps_get_status s) as (_ & (new & Ht & Ha) & Hn & Ho).
  split; [|by split]. exists new. split; [exact Ht|].
  intros h c Hin. rewrite Forall_forall in Ha.
  apply list_elem_of_In in Hin. apply (Ha _ Hin).
Qed.

(** ** The two states of the driver *)

Lemma port_open_lookup h w :
  serial.port_is_open h w = true <->
  exists p, ports w !! h = Some p /\ is_open p = true.
Proof.
  unfold serial.port_is_open. destruct (ports w !! h) as [p|].
  - split; [by exists p | by intros (p' & [= <-] & Ho)].
  - split; [discriminate | by intros (p' & Hp & _)].
Qed.

Lemma Connected_open s h :
  (exists p, Connected s h p) <->
  is_connected (self s) = true /\ connection (self s) = Some h /\
  serial.port_is_open h (env s) = true.
Proof.
  rewrite port_open_lookup. unfold Connected. split.
  - intros (p & Hi & Hc & Hp & Ho). by eauto.
  - intros (Hi & Hc & p & Hp & Ho). by eauto.
Qed.

(** A computation that keeps the controller object and the open state of
    the ports keeps the driver connected. *)
Lemma Connected_kept s s' h p :
  Connected s h p -> self s' = self s ->
  (forall h', serial.port_is_open h' (env s') = serial.port_is_open h' (env s)) ->
  exists p', Connected s' h p'.
Proof.
  intros Hs Hself Hopen. apply Connected_open.
  assert (Hex : exists p0, Connected s h p0) by eauto.
  apply Connected_open in Hex as (Hi & Hc & Ho).
  by rewrite Hself, Hopen.
Qed.

Lemma quiet_pending w : quiet w -> pending w = None.
Proof.
  intros Hq. destruct (pending w) as [msg|] eqn:Hf; [|done].
  by destruct (Hq msg (pending_In _ _ Hf)).
Qed.

Lemma quiet_sub w w' :
  (forall x, In x (faults w') -> In x (faults w)) -> quiet w -> quiet w'.
Proof. intros Hsub Hq msg Hin. by apply (Hq msg), Hsub. Qed.


(** ** The lifecycle *)

(** The driver is in one of the two states of its lifecycle. *)
Definition Sound (s : Sys) : Prop :=
  (exists h p, Connected s h p) \/ Disconnected s.

Lemma get_status_off s :
  is_connected (self s) = false -> Controller.get_status s = (Ret ∅, s).
Proof.
  intros Hi. unfold Controller.get_status. rewrite bind_get.
  unfold Controller.not_connected. by rewrite Hi.
Qed.

Lemma Sound_eta s s' : self s' = self s -> env s' = env s -> Sound s -> Sound s'.
Proof. destruct s, s'. simpl. by intros -> ->. Qed.

Lemma Sound_setChannel s ch on :
  Sound s -> Sound (snd (Controller.setChannel ch on s)).
Proof.
  intros [(h & p & Hs) | Hd].
  - left. exists h. apply (Connected_kept s _ h p Hs).
    + apply keeps_setChannel.
    + apply (steps_setChannel ch on s).
  - right. by rewrite setChannel_not_connected by apply Hd.
Qed.

Lemma Sound_get_status s : Sound s -> Sound (snd (Controller.get_status s)).
Proof.
  intros [(h & p & Hs) | Hd].
  - left. exists h. apply (Connected_kept s _ h p Hs).
    + apply keeps_get_status.
    + apply (steps_get_status s).
  - right. by rewrite get_status_off by apply Hd.
Qed.

Lemma Sound_disconnect s : Sound s -> Sound (snd (Controller.disconnect s)).
Proof.
  destruct s as [c w]. intros [(h & p & Hi & Hc & Hp & Ho) | (Hi & Hcl)];
    simpl in *; rewrite disconnect_run.
  - rewrite Hc. unfold serial.port_is_open at 1. rewrite Hp, Ho.
    destruct (pending w) as [msg|].
    + left. exists h, p. by repeat split.
    + right. split; [reflexivity|]. cbn [snd self env connection with_flag].
      intros h' Hh'. rewrite Hc in Hh'. injection Hh' as <-.
      apply port_closed_after_close.
  - destruct (connection c) as [h|] eqn:Hc.
    + rewrite (Hcl h eq_refl). right. cbn [snd]. split; [exact Hi|].
      cbn [self env]. by rewrite Hc.
    + right. cbn [snd]. split; [exact Hi|]. cbn [self env]. by rewrite Hc.
Qed.

(** [connect] on a driver whose flag is off lands in one of the two
    states. *)
Lemma connect_lands s :
  is_connected (self s) = false ->
  let r := Controller.connect s in
  (fst r = Ret true /\ exists h p, Connected (snd r) h p) \/
  (exists e, fst r = Raise e /\ Disconnected (snd r)).
Proof.
  destruct s as [c w]. cbn [self env]. intros Hi. cbv zeta.
  unfold Controller.connect, try_except. rewrite connect_try_run. cbv zeta.
  destruct (pending w) as [m1|].
  { rewrite connect_except_run. right. eexists. split; [reflexivity|].
    destruct (connection c) as [h0|] eqn:Hc; cbn [snd]; split; cbn [self env].
    - exact Hi.
    - intros h' Hh'. discriminate Hh'.
    - exact Hi.
    - intros h' Hh'. rewrite Hc in Hh'. discriminate Hh'. }
  destruct (pending (opened c w)) as [m2|].
  { rewrite connect_except_run. right. eexists. split; [reflexivity|].
    cbn [snd self env connection with_connection]. split; [exact Hi | discriminate]. }
  destruct (pending (stored _ _ _)) as [m3|].
  { rewrite connect_except_run. right. eexists. split; [reflexivity|].
    cbn [snd self env connection with_connection]. split; [exact Hi | discriminate]. }
  left. split; [reflexivity|]. exists (next_handle w), (fresh_port c).
  cbn [snd]. repeat split. cbn [env log]. apply ports_stored.
Qed.

Lemma Sound_connect s :
  is_connected (self s) = false -> Sound (snd (Controller.connect s)).
Proof.
  intros Hi. destruct (connect_lands s Hi) as [(_ & h & p & Hs) | (e & _ & Hd)].
  - left. by eauto.
  - by right.
Qed.

(** X3: the driver is always in one of its two states.  A new controller is
    disconnected, and from a driver that is connected (flag on, handle on
    an open port) or disconnected (flag off, handle null or closed),
    [connect] called with the flag off, [disconnect], [turn_on],
    [turn_off] and [get_status] all lead to a driver that is connected or
    disconnected, whether they return or raise. *)
Theorem lifecycle_two_states :
  (forall port baud tmo w, Disconnected (mkSys (Controller.init port baud tmo) w)) /\
  (forall s, is_connected (self s) = false -> Sound (snd (Controller.connect s))) /\
  (forall s, Sound s -> Sound (snd (Controller.disconnect s))) /\
  (forall s ch on, Sound s -> Sound (snd (Controller.setChannel ch on s))) /\
  (forall s, Sound s -> Sound (snd (Controller.get_status s))).
Proof.
  split; [|split; [|split; [|split]]].
  - intros. split; [reflexivity | discriminate].
  - apply Sound_connect.
  - apply Sound_disconnect.
  - intros s ch on. apply Sound_setChannel.
  - apply Sound_get_status.
Qed.

Lemma lifecycle_two_states_witness :
  Sound (snd (Controller.disconnect (sys0 [Some "Input/output error"] []))) /\
  Sound (snd (Controller.setChannel 1 true (sys0 [Some "timeout"] []))) /\
  Sound (snd (Controller.connect
           (mkSys (Controller.init "COM3" 9600 2500)
                  (mkWorld ∅ 0 [None; Some "busy"; Some "again"] [] [])))).
Proof.
  destruct lifecycle_two_states as (_ & Hconn & Hdis & Hset & _).
  assert (H0 : forall fs, Sound (sys0 fs []))
    by (intros fs; left; exists 0%nat, port0; apply Connected_sys0).
  split; [|split].
  - apply Hdis, H0.
  - apply Hset, H0.
  - apply Hconn. reflexivity.
Defined.
(** X4: [connect] on a driver whose flag is off has two outcomes.  It
    returns [True] with the driver connected to a freshly opened port that
    carries the configured name, baud rate and timeout with 8 data bits,
    no parity and one stop bit, its buffers empty and nothing sent; or it
    raises with the driver disconnected.  When no fault is scheduled it
    returns, after exactly the calls open, [reset_input_buffer],
    [reset_output_buffer] and a 500 ms wait. *)
Theorem connect_outcomes s :
  is_connected (self s) = false ->
  let h := next_handle (env s) in
  let r := Controller.connect s in
  ((fst r = Ret true /\
    Connected (snd r) h
      (mkSerial (com_port (self s)) (baudrate (self s)) 8 1 "N"
                (timeout (self s)) true [] [] []) /\
    trace (env (snd r)) =
      trace (env s) ++ [Call h COpen; Call h CResetInput; Call h CResetOutput;
                        Sleep 500]) \/
   (exists e, fst r = Raise e /\ Disconnected (snd r))) /\
  (quiet (env s) -> fst r = Ret true).
Proof.
  destruct s as [c w]. cbn [self env]. intros Hi. cbv zeta.
  unfold Controller.connect, try_except. rewrite connect_try_run. cbv zeta.
  destruct (pending w) as [m1|] eqn:Hf1.
  { rewrite connect_except_run. split.
    - right. eexists. split; [reflexivity|].
      destruct (connection c) as [h0|] eqn:Hc; cbn [snd]; split; cbn [self env].
      + exact Hi.
      + intros h' Hh'. discriminate Hh'.
      + exact Hi.
      + intros h' Hh'. rewrite Hc in Hh'. discriminate Hh'.
    - intros Hq. rewrite (quiet_pending _ Hq) in Hf1. discriminate. }
  destruct (pending (opened c w)) as [m2|] eqn:Hf2.
  { rewrite connect_except_run. split.
    - right. eexists. split; [reflexivity|]. cbn [snd self env connection
        with_connection]. split; [exact Hi | discriminate].
    - intros Hq. assert (Hq' : quiet (opened c w))
        by (eapply quiet_sub; [|exact Hq]; intros x; apply In_tail).
      rewrite (quiet_pending _ Hq') in Hf2. discriminate. }
  destruct (pending (stored _ _ _)) as [m3|] eqn:Hf3.
  { rewrite connect_except_run. split.
    - right. eexists. split; [reflexivity|]. cbn [snd self env connection
        with_connection]. split; [exact Hi | discriminate].
    - intros Hq. apply pending_In in Hf3.
      cbn [faults stored called advance log set_ports opened] in Hf3.
      do 2 apply In_tail in Hf3. by destruct (Hq m3). }
  split; [|done]. left. split; [reflexivity|]. split.
  - cbn [snd]. repeat split. cbn [env log]. apply ports_stored.
  - cbn [snd env]. cbn [trace log stored called advance set_ports opened].
    by rewrite <- !app_assoc.
Qed.

(** X5: a command, whether it succeeds or fails, leaves a connected driver
    connected to the same open port: an input/output error never changes
    the flag or the handle. *)
Theorem commands_keep_connected s h p :
  Connected s h p ->
  (forall ch on, exists p', Connected (snd (Controller.setChannel ch on s)) h p') /\
  (exists p', Connected (snd (Controller.get_status s)) h p').
Proof.
  intros Hs. split.
  - intros ch on. apply (Connected_kept s _ h p Hs).
    + apply keeps_setChannel.
    + apply (steps_setChannel ch on s).
  - apply (Connected_kept s _ h p Hs).
    + apply keeps_get_status.
    + apply (steps_get_status s).
Qed.

Lemma commands_keep_connected_witness :
  (exists p', Connected
     (snd (Controller.setChannel 2 true (sys0 [None; Some "write timeout"] []))) 0 p') /\
  (exists p', Connected
     (snd (Controller.get_status (sys0 [Some "device lost"] []))) 0 p').
Proof.
  split.
  - apply (proj1 (commands_keep_connected _ 0 port0 (Connected_sys0 _ _)) 2 true).
  - apply (proj2 (commands_keep_connected _ 0 port0 (Connected_sys0 _ _))).
Defined.

(** On a connected driver with no fault scheduled a command for a channel
    in 1..4 returns, and the driver stays connected with no fault
    scheduled; the wire gained the frame and the output buffer is empty. *)
Lemma setChannel_quiet s h p ch on :
  Connected s h p -> 1 <= ch <= 4 -> quiet (env s) ->
  exists s' p',
    Controller.setChannel ch on s = (Ret tt, s') /\ self s' = self s /\
    Connected s' h p' /\ quiet (env s') /\
    wire p' = wire p ++ frame ch on /\ out_buf p' = [].
Proof.
  intros Hs Hch Hq.
  pose proof (steps_setChannel ch on s) as Hev.
  pose proof (keeps_setChannel ch on s) as Hself.
  rewrite (setChannel_guarded _ _ _ _ _ Hs Hch) in *.
  destruct Hs as (Hi & Hc & Hp & Ho). destruct s as [c w]. simpl in *.
  assert (Hv : 0 <= (if on then 1 else 0) < 256) by (destruct on; lia).
  destruct (Controller.send_command _ _ _) as [r0 s0] eqn:Hcmd.
  pose proof (send_command_spec _ _ _ _ _ _ Hc Hp Ho Hch Hv _ _ Hcmd)
    as (_ & new & p' & _ & Hp' & Ho' & Hr).
  destruct r0 as [[]|e0].
  - destruct Hr as (_ & Hw & Hob). simpl in *.
    exists s0, p'. split; [reflexivity|]. split; [exact Hself|].
    split; [|split; [|by split]].
    + repeat split; try done; by rewrite Hself.
    + by apply (evolves_quiet _ _ _ Hev).
  - destruct Hr as ((msg & pre & _ & _ & Hin & _) & _). by destruct (Hq msg).
Qed.

(** X6: a command that failed does not disable the driver: it is still
    connected to the same port, and a retry that meets no fault returns,
    having put its frame on the wire after whatever the failed attempt
    had left there, with nothing kept in the output buffer. *)
Theorem setChannel_retry s h p ch on e s1 :
  Connected s h p -> 1 <= ch <= 4 ->
  Controller.setChannel ch on s = (Raise e, s1) ->
  quiet (env s1) ->
  exists p1 s2 p2,
    Connected s1 h p1 /\
    Controller.setChannel ch on s1 = (Ret tt, s2) /\
    Connected s2 h p2 /\
    wire p2 = wire p1 ++ frame ch on /\ out_buf p2 = [].
Proof.
  intros Hs Hch Hrun Hq.
  pose proof (keeps_setChannel ch on s) as Hself.
  pose proof (steps_setChannel ch on s) as Hev.
  rewrite Hrun in Hself, Hev. cbn [snd] in Hself, Hev.
  destruct (Connected_kept s s1 h p Hs Hself (proj2 (proj2 (proj2 Hev))))
    as (p1 & Hs1).
  destruct (setChannel_quiet s1 h p1 ch on Hs1 Hch Hq)
    as (s2 & p2 & Hrun2 & _ & Hs2 & _ & Hw2 & Hob).
  by exists p1, s2, p2.
Qed.

Lemma setChannel_retry_witness :
  let s1 := snd (Controller.setChannel 3 true
                   (sys0 [None; None; Some "write timeout"] [])) in
  exists p1 s2 p2,
    Connected s1 0 p1 /\
    Controller.setChannel 3 true s1 = (Ret tt, s2) /\
    Connected s2 0 p2 /\
    wire p2 = wire p1 ++ [255; 3; 1] /\ out_buf p2 = [].
Proof.
  intros s1.
  apply (setChannel_retry (sys0 [None; None; Some "write timeout"] []) 0 port0
           3 true (command_failure 3 true "write timeout") s1
           (Connected_sys0 _ _)).
  - lia.
  - vm_compute. reflexivity.
  - intros msg Hin. vm_compute in Hin. exact Hin.
Defined.

Lemma connect_outcomes_witness :
  let s := mkSys (Controller.init "COM3" 9600 2500) (mkWorld ∅ 0 [] [] []) in
  fst (Controller.connect s) = Ret true.
Proof.
  intros s.
  apply (proj2 (connect_outcomes s eq_refl)).
  intros msg [].
Defined.

Lemma set_relay_returns a k on : fst (Dashboard.set_relay k on a) = Ret tt.
Proof.
  destruct (Dashboard.controller_connected a) eqn:Hconn.
  - apply controller_connected_inv in Hconn as (c & Hc & Hi).
    rewrite (set_relay_run a c k on Hc Hi).
    by destruct (Controller.setChannel k on _) as [[[]|e] s'].
  - by rewrite set_relay_idle.
Qed.

Lemma for_each_returns {S A} (l : list A) (body : A -> M S unit) s :
  (forall x s0, fst (body x s0) = Ret tt) ->
  fst (Dashboard.for_each l body s) = Ret tt.
Proof.
  intros Hb. revert s. induction l as [|x l IH]; intros s; [done|].
  cbn [Dashboard.for_each]. unfold bind. specialize (Hb x s).
  destruct (body x s) as [[[]|e] s1]; simpl in Hb; [apply IH | discriminate].
Qed.

(** X7: the relay buttons and the polling step never raise: in every state
    and whatever the transport does, [turn_relay_on], [turn_relay_off],
    [toggle_relay], [turn_all_on], [turn_all_off] and one turn of the
    status loop return normally. *)
Theorem relay_callbacks_never_raise a :
  (forall k, fst (Dashboard.turn_relay_on k a) = Ret tt) /\
  (forall k, fst (Dashboard.turn_relay_off k a) = Ret tt) /\
  (forall k, fst (Dashboard.toggle_relay k a) = Ret tt) /\
  fst (Buttons.turn_all_on a) = Ret tt /\
  fst (Buttons.turn_all_off a) = Ret tt /\
  fst (Dashboard.update_status_step a) = Ret tt.
Proof.
  split; [intros k; apply (set_relay_returns a k true)|].
  split; [intros k; apply (set_relay_returns a k false)|].
  split; [|split; [|split]].
  - intros k. unfold Dashboard.toggle_relay. rewrite bind_get.
    destruct (negb _); [reflexivity|].
    destruct (default false _);
      [apply (set_relay_returns a k false) | apply (set_relay_returns a k true)].
  - apply for_each_returns. intros k a0. apply (set_relay_returns a0 k true).
  - apply for_each_returns. intros k a0. apply (set_relay_returns a0 k false).
  - unfold Dashboard.update_status_step. rewrite bind_get.
    unfold bind at 1.
    destruct (Dashboard.controller_connected a); [|reflexivity].
    unfold try_except.
    match goal with |- context [match ?m a with _ => _ end] =>
      destruct (m a) as [[[]|e] a1] end; reflexivity.
Qed.

(** A relay button on a connected dashboard with no fault scheduled. *)
Lemma set_relay_quiet a c h p k on :
  controller (dash a) = Some c ->
  Connected (mkSys c (world a)) h p -> quiet (world a) -> 1 <= k <= 4 ->
  exists w' p',
    Dashboard.set_relay k on a =
      (Ret tt, dash_after a c (<[k := on]> (relay_states (dash a)))
                 [RelayUI k on] w') /\
    Connected (mkSys c w') h p' /\ quiet w' /\
    wire p' = wire p ++ frame k on /\ out_buf p' = [].
Proof.
  intros Hctl Hs Hq Hk.
  assert (Hi : is_connected c = true) by apply Hs.
  destruct (setChannel_quiet _ h p k on Hs Hk Hq)
    as ([c' w'] & p' & Hrun & Hself & Hs' & Hq' & Hw & Hob).
  simpl in Hself. subst c'.
  exists w', p'. rewrite (set_relay_run a c k on Hctl Hi), Hrun. cbn [self env].
  replace ((1 <=? k) && (k <=? 4)) with true
    by (symmetry; apply andb_true_iff; split; apply Z.leb_le; lia).
  split; [reflexivity|]. split; [exact Hs'|]. split; [exact Hq'|]. by split.
Qed.

Lemma toggle_relay_connected a k :
  Dashboard.controller_connected a = true ->
  Dashboard.toggle_relay k a =
  Dashboard.set_relay k (negb (default false (relay_states (dash a) !! k))) a.
Proof.
  intros Hc. unfold Dashboard.toggle_relay. rewrite bind_get, Hc. cbn [negb].
  by destruct (default false _).
Qed.

(** X8: on a connected dashboard with no fault scheduled, [toggle_relay]
    sends the command opposite to the cached state (a missing entry
    counts as off) and caches the new state; toggling twice sends both
    frames in turn and restores the cached state. *)
Theorem toggle_relay_flips a c h p k :
  controller (dash a) = Some c ->
  Connected (mkSys c (world a)) h p -> quiet (world a) -> 1 <= k <= 4 ->
  let cur := default false (relay_states (dash a) !! k) in
  let a1 := snd (Dashboard.toggle_relay k a) in
  let a2 := snd (Dashboard.toggle_relay k a1) in
  relay_states (dash a1) !! k = Some (negb cur) /\
  (exists p1, ports (world a1) !! h = Some p1 /\
              wire p1 = wire p ++ frame k (negb cur)) /\
  relay_states (dash a2) !! k = Some cur /\
  (exists p2, ports (world a2) !! h = Some p2 /\
              wire p2 = wire p ++ frame k (negb cur) ++ frame k cur).
Proof.
  intros Hctl Hs Hq Hk. cbv zeta.
  assert (Hconn : Dashboard.controller_connected a = true)
    by (unfold Dashboard.controller_connected; rewrite Hctl; apply Hs).
  rewrite (toggle_relay_connected a k Hconn).
  set (cur := default false (relay_states (dash a) !! k)).
  destruct (set_relay_quiet a c h p k (negb cur) Hctl Hs Hq Hk)
    as (w1 & p1 & -> & Hs1 & Hq1 & Hw1 & _).
  cbn [snd].
  set (a1 := dash_after a c _ _ w1).
  assert (Hcur1 : relay_states (dash a1) !! k = Some (negb cur))
    by apply lookup_insert_eq.
  assert (Hconn1 : Dashboard.controller_connected a1 = true) by apply Hs.
  rewrite (toggle_relay_connected a1 k Hconn1), Hcur1.
  change (default false (Some (negb cur))) with (negb cur).
  rewrite negb_involutive.
  destruct (set_relay_quiet a1 c h p1 k cur eq_refl Hs1 Hq1 Hk)
    as (w2 & p2 & -> & Hs2 & _ & Hw2 & _).
  cbn [snd]. split; [reflexivity|]. split.
  { exists p1. split; [apply Hs1 | exact Hw1]. }
  split; [apply lookup_insert_eq|].
  exists p2. split; [apply Hs2|]. by rewrite Hw2, Hw1, <- app_assoc.
Qed.

Lemma toggle_relay_flips_witness :
  let a1 := snd (Dashboard.toggle_relay 2 (app0 [] [])) in
  relay_states (dash a1) !! 2 = Some true /\
  relay_states (dash (snd (Dashboard.toggle_relay 2 a1))) !! 2 = Some false.
Proof.
  intros a1.
  destruct (toggle_relay_flips (app0 [] []) ctrl0 0 port0 2 eq_refl
              (Connected_sys0 _ _)) as (H1 & _ & H2 & _).
  - intros msg [].
  - lia.
  - split; [exact H1 | exact H2].
Defined.

(** Switching a list of channels, all in 1..4, one after the other. *)
Lemma all_relays_quiet on l a c h p :
  Forall (fun k => 1 <= k <= 4) l ->
  controller (dash a) = Some c ->
  Connected (mkSys c (world a)) h p -> quiet (world a) ->
  exists a' p',
    Dashboard.for_each l (fun i => Dashboard.set_relay i on) a = (Ret tt, a') /\
    controller (dash a') = Some c /\
    Connected (mkSys c (world a')) h p' /\ quiet (world a') /\
    wire p' = wire p ++ concat (map (fun k => frame k on) l) /\
    (forall k, In k l -> relay_states (dash a') !! k = Some on) /\
    (forall k, ~ In k l -> relay_states (dash a') !! k = relay_states (dash a) !! k).
Proof.
  intros Hl. revert a p. induction Hl as [|k l Hk Hl IH]; intros a p Hctl Hs Hq.
  - exists a, p. simpl. rewrite app_nil_r.
    split; [reflexivity|]. split; [exact Hctl|]. split; [exact Hs|].
    split; [exact Hq|]. split; [reflexivity|]. split; [intros k []|done].
  - cbn [Dashboard.for_each]. unfold bind at 1.
    destruct (set_relay_quiet a c h p k on Hctl Hs Hq Hk)
      as (w1 & p1 & -> & Hs1 & Hq1 & Hw1 & _).
    set (a1 := dash_after a c _ _ w1).
    destruct (IH a1 p1 eq_refl Hs1 Hq1)
      as (a' & p' & Hrun & Hctl' & Hs' & Hq' & Hw' & Hin & Hout).
    exists a', p'. split; [exact Hrun|]. split; [exact Hctl'|].
    split; [exact Hs'|]. split; [exact Hq'|]. split; [|split].
    + rewrite Hw', Hw1. cbn [map concat]. by rewrite <- !app_assoc.
    + intros k' [<- | Hk'].
      * destruct (in_dec Z.eq_dec k l) as [Hkl|Hkl]; [by apply Hin|].
        rewrite (Hout k Hkl). apply lookup_insert_eq.
      * by apply Hin.
    + intros k' Hk'. rewrite (Hout k'); [|intros H; apply Hk'; by right].
      apply lookup_insert_ne. intros ->. apply Hk'. by left.
Qed.

(** X9: on a connected dashboard with no fault scheduled, [turn_all_on]
    and [turn_all_off] send the four frames for channels 1, 2, 3, 4 in
    that order, cache the commanded state for each of the four channels,
    and leave every other cache entry alone. *)
Theorem turn_all_switches_all a c h p :
  controller (dash a) = Some c ->
  Connected (mkSys c (world a)) h p -> quiet (world a) ->
  (let a' := snd (Buttons.turn_all_on a) in
   (forall k, 1 <= k <= 4 -> relay_states (dash a') !! k = Some true) /\
   (forall k, ~ 1 <= k <= 4 ->
      relay_states (dash a') !! k = relay_states (dash a) !! k) /\
   exists p', ports (world a') !! h = Some p' /\
     wire p' = wire p ++ [255; 1; 1; 255; 2; 1; 255; 3; 1; 255; 4; 1]) /\
  (let a' := snd (Buttons.turn_all_off a) in
   (forall k, 1 <= k <= 4 -> relay_states (dash a') !! k = Some false) /\
   (forall k, ~ 1 <= k <= 4 ->
      relay_states (dash a') !! k = relay_states (dash a) !! k) /\
   exists p', ports (world a') !! h = Some p' /\
     wire p' = wire p ++ [255; 1; 0; 255; 2; 0; 255; 3; 0; 255; 4; 0]).
Proof.
  intros Hctl Hs Hq.
  assert (Hr : Forall (fun k => 1 <= k <= 4) Dashboard.range_1_5)
    by (unfold Dashboard.range_1_5; repeat constructor; lia).
  assert (Hmem : forall k, In k Dashboard.range_1_5 <-> 1 <= k <= 4)
    by (intros k; unfold Dashboard.range_1_5; simpl; lia).
  split; cbv zeta.
  - destruct (all_relays_quiet true _ a c h p Hr Hctl Hs Hq)
      as (a' & p' & Hrun & _ & Hs' & _ & Hw & Hin & Hout).
    unfold Buttons.turn_all_on.
    change (fun i => Dashboard.turn_relay_on i)
      with (fun i => Dashboard.set_relay i true).
    rewrite Hrun. cbn [snd].
    split; [intros k Hk; by apply Hin, Hmem|].
    split; [intros k Hk; apply Hout; by rewrite Hmem|].
    exists p'. split; [apply Hs' | exact Hw].
  - destruct (all_relays_quiet false _ a c h p Hr Hctl Hs Hq)
      as (a' & p' & Hrun & _ & Hs' & _ & Hw & Hin & Hout).
    unfold Buttons.turn_all_off.
    change (fun i => Dashboard.turn_relay_off i)
      with (fun i => Dashboard.set_relay i false).
    rewrite Hrun. cbn [snd].
    split; [intros k Hk; by apply Hin, Hmem|].
    split; [intros k Hk; apply Hout; by rewrite Hmem|].
    exists p'. split; [apply Hs' | exact Hw].
Qed.

Lemma turn_all_switches_all_witness :
  exists p', ports (world (snd (Buttons.turn_all_on (app0 [] [])))) !! 0%nat = Some p' /\
    wire p' = [255; 1; 1; 255; 2; 1; 255; 3; 1; 255; 4; 1].
Proof.
  destruct (turn_all_switches_all (app0 [] []) ctrl0 0 port0 eq_refl
              (Connected_sys0 _ _)) as ((_ & _ & Hw) & _).
  - intros msg [].
  - exact Hw.
Defined.

(** What a status query returns when the next arrival is [reply]. *)
Definition decoded (reply : list Z) : gmap string string :=
  let response := take 4 reply in
  if Nat.eqb (length response) 4 then Controller.decode_status response else ∅.

(** On a connected driver with no fault scheduled a status query returns
    what the arrival decodes to, and the driver stays connected with no
    fault scheduled; the wire gained what the output buffer held and then
    the request. *)
Lemma get_status_quiet s h p :
  Connected s h p -> quiet (env s) ->
  exists s' p',
    Controller.get_status s = (Ret (decoded (hd [] (arrivals (env s)))), s') /\
    self s' = self s /\ Connected s' h p' /\ quiet (env s') /\
    wire p' = wire p ++ out_buf p ++ status_request.
Proof.
  intros Hs Hq.
  pose proof (steps_get_status s) as Hev.
  pose proof (keeps_get_status s) as Hself.
  destruct (Controller.get_status s) as [r s'] eqn:Hrun. simpl in Hev, Hself.
  destruct (Connected_kept s s' h p Hs Hself (proj2 (proj2 (proj2 Hev))))
    as (p0 & Hs').
  destruct Hs as (Hi & Hc & Hp & Ho). destruct s as [c w]. simpl in *.
  pose proof (get_status_spec c w h p Hi Hc Hp Ho r s' Hrun)
    as (_ & new & p' & _ & Hp' & [(_ & msg & pre & _ & Hin) | Hok]).
  { by destruct (Hq msg). }
  destruct Hok as (_ & _ & Hw & Hr). simpl in Hr.
  assert (p0 = p') by (destruct Hs' as (_ & _ & Hp0 & _); simpl in Hp0; congruence).
  subst p0. exists s', p'. rewrite Hr. split; [reflexivity|].
  split; [exact Hself|]. split; [exact Hs'|]. split; [|exact Hw].
  by apply (evolves_quiet _ _ _ Hev).
Qed.

Lemma poll_body_assigns statuses k v a :
  statuses !! status_key k = Some v ->
  poll_body statuses k a =
    (Ret tt,
     mkApp (mkDashboard (controller (dash a))
              (<[k := String.eqb v "ON"]> (relay_states (dash a)))
              (status_update_running (dash a))
              (ui (dash a) ++ [After k (String.eqb v "ON")]))
           (world a)).
Proof. intros Hv. unfold poll_body. by rewrite Hv. Qed.

Lemma decode_byte_on b : String.eqb (Controller.decode_byte b) "ON" = (b =? 1).
Proof. unfold Controller.decode_byte. by destruct (b =? 1). Qed.

(** X11: a poll that receives four bytes with no fault on the way refreshes
    the whole cache: the entry of channel [i + 1] becomes true exactly
    when the byte at offset [i] is 1, the four card updates are scheduled
    in channel order, and no other cache entry changes. *)
Theorem poll_refreshes_cache a c h p b1 b2 b3 b4 rest :
  controller (dash a) = Some c ->
  Connected (mkSys c (world a)) h p -> quiet (world a) ->
  arrivals (world a) = [b1; b2; b3; b4] :: rest ->
  let a' := snd (Dashboard.update_status_step a) in
  relay_states (dash a') =
    <[4 := (b4 =? 1)]> (<[3 := (b3 =? 1)]> (<[2 := (b2 =? 1)]>
      (<[1 := (b1 =? 1)]> (relay_states (dash a))))) /\
  ui (dash a') =
    ui (dash a) ++ [After 1 (b1 =? 1); After 2 (b2 =? 1);
                    After 3 (b3 =? 1); After 4 (b4 =? 1)].
Proof.
  intros Hctl Hs Hq Harr.
  assert (Hconn : Dashboard.controller_connected a = true)
    by (unfold Dashboard.controller_connected; rewrite Hctl; apply Hs).
  destruct (get_status_quiet _ h p Hs Hq) as (s' & p' & Hrun & _).
  cbn [env] in Hrun. rewrite Harr in Hrun.
  change (decoded (hd [] ([b1; b2; b3; b4] :: rest)))
    with (Controller.decode_status [b1; b2; b3; b4]) in Hrun.
  assert (Hstep : Dashboard.update_status_step a =
    (Ret tt,
     mkApp (mkDashboard (Some (self s'))
              (<[4 := (b4 =? 1)]> (<[3 := (b3 =? 1)]> (<[2 := (b2 =? 1)]>
                 (<[1 := (b1 =? 1)]> (relay_states (dash a))))))
              (status_update_running (dash a))
              (ui (dash a) ++ [After 1 (b1 =? 1); After 2 (b2 =? 1);
                               After 3 (b3 =? 1); After 4 (b4 =? 1)]))
           (log (Sleep 1000) (env s')))).
  { unfold Dashboard.update_status_step. rewrite bind_get, Hconn.
    unfold bind at 1, try_except, bind at 1, Dashboard.on_controller.
    rewrite Hctl, Hrun.
    match goal with
    | |- context [Dashboard.for_each ?l ?f ?a1] =>
        change (Dashboard.for_each l f a1)
          with (Dashboard.for_each l
                  (poll_body (Controller.decode_status [b1; b2; b3; b4])) a1)
    end.
    destruct (decode_status_spec [b1; b2; b3; b4] eq_refl) as (_ & Hget).
    pose proof (Hget 0%nat b1 eq_refl) as H1.
    pose proof (Hget 1%nat b2 eq_refl) as H2.
    pose proof (Hget 2%nat b3 eq_refl) as H3.
    pose proof (Hget 3%nat b4 eq_refl) as H4.
    rewrite <- decode_byte_spec in H1, H2, H3, H4.
    change (status_key (Z.of_nat 0 + 1)) with (status_key 1) in H1.
    change (status_key (Z.of_nat 1 + 1)) with (status_key 2) in H2.
    change (status_key (Z.of_nat 2 + 1)) with (status_key 3) in H3.
    change (status_key (Z.of_nat 3 + 1)) with (status_key 4) in H4.
    unfold Dashboard.range_1_5. cbn [Dashboard.for_each].
    unfold bind at 1. rewrite (poll_body_assigns _ 1 _ _ H1).
    unfold bind at 1. rewrite (poll_body_assigns _ 2 _ _ H2).
    unfold bind at 1. rewrite (poll_body_assigns _ 3 _ _ H3).
    unfold bind at 1. rewrite (poll_body_assigns _ 4 _ _ H4).
    rewrite !decode_byte_on.
    cbv [zoom time.sleep modify ret].
    cbn [snd fst dash relay_states ui world controller status_update_running].
    by rewrite <- !app_assoc. }
  cbv zeta. rewrite Hstep. by split.
Qed.

Lemma poll_refreshes_cache_witness :
  relay_states (dash (snd (Dashboard.update_status_step (app0 [] [[1; 0; 2; 1]]))))
  = <[4 := true]> (<[3 := false]> (<[2 := false]> (<[1 := true]>
      (relay_states Dashboard.init)))).
Proof.
  apply (proj1 (poll_refreshes_cache (app0 [] [[1; 0; 2; 1]]) ctrl0 0 port0
                  1 0 2 1 [] eq_refl (Connected_sys0 _ _)
                  ltac:(intros msg []) eq_refl)).
Defined.

(** ** The dashboard's session *)

(** The exception of a failed [connect] names the port and the cause. *)
Lemma connect_error_form s e s' :
  Controller.connect s = (Raise e, s') ->
  exists cause,
    e = Exception ("Failed to connect to " +:+ com_port (self s) +:+ ": " +:+ cause).
Proof.
  destruct s as [c w]. unfold Controller.connect, try_except.
  rewrite connect_try_run. cbv zeta.
  destruct (pending w) as [m1|];
    [rewrite connect_except_run; intros [= <- _]; by exists m1|].
  destruct (pending (opened c w)) as [m2|];
    [rewrite connect_except_run; intros [= <- _]; by exists m2|].
  destruct (pending (stored _ _ _)) as [m3|]; [|discriminate].
  rewrite connect_except_run. intros [= <- _]. by exists m3.
Qed.

(** The dashboard after [connect] ran the controller's [connect] to the
    state [s'], with the polling flag [running] and the events [evs]. *)
Definition dash_connected (a : App) (s' : Sys) (running : bool)
    (evs : list ui_event) : App :=
  mkApp (mkDashboard (Some (self s')) (relay_states (dash a)) running
           (ui (dash a) ++ evs)) (env s').

Lemma dashboard_connect_run a port :
  port <> "" ->
  Dashboard.connect port a =
    match Controller.connect
            (mkSys (Controller.init port Controller.default_baudrate
                      Controller.default_timeout) (world a)) with
    | (Ret _, s') =>
        (Ret tt,
         dash_connected a s' true
           [StatusText "Connected"; ControlsEnabled true; ThreadStarted;
            ShowInfo "Success" ("Connected to " +:+ port)])
    | (Raise e, s') =>
        (Ret tt,
         dash_connected a s' (status_update_running (dash a))
           [ShowError "Connection Error" (str e)])
    end.
Proof.
  intros Hport. unfold Dashboard.connect.
  destruct (String.eqb_spec port ""); [done|].
  cbv [try_except bind Dashboard.set_controller modify Dashboard.on_controller].
  simpl. destruct (Controller.connect _) as [[b|e] s']; simpl.
  - unfold dash_connected. by rewrite <- !app_assoc.
  - reflexivity.
Qed.

(** X12: the dashboard's [connect] never raises.  With no port chosen it
    only shows an error and touches neither the controller nor the
    transport.  Otherwise it installs a new controller for the port, with
    9600 baud and a 2.5 s timeout, and runs its [connect]: on success the
    controller is connected and polling is started; on failure the
    controller is disconnected, polling is not started, and the error
    dialog shows "Failed to connect to <port>: <cause>". *)
Theorem dashboard_connect_outcomes a port :
  (Dashboard.connect "" a =
     (Ret tt,
      mkApp (mkDashboard (controller (dash a)) (relay_states (dash a))
               (status_update_running (dash a))
               (ui (dash a) ++ [ShowError "Error" "Please select a COM port"]))
            (world a))) /\
  (port <> "" ->
   let a' := snd (Dashboard.connect port a) in
   fst (Dashboard.connect port a) = Ret tt /\
   relay_states (dash a') = relay_states (dash a) /\
   exists c', controller (dash a') = Some c' /\
     com_port c' = port /\ baudrate c' = 9600 /\ timeout c' = 2500 /\
     (((exists h p, Connected (mkSys c' (world a')) h p) /\
       status_update_running (dash a') = true /\
       ui (dash a') =
         ui (dash a) ++ [StatusText "Connected"; ControlsEnabled true;
                         ThreadStarted;
                         ShowInfo "Success" ("Connected to " +:+ port)]) \/
      (Disconnected (mkSys c' (world a')) /\
       status_update_running (dash a') = status_update_running (dash a) /\
       exists cause,
         ui (dash a') =
           ui (dash a) ++ [ShowError "Connection Error"
                             ("Failed to connect to " +:+ port +:+ ": "
                              +:+ cause)]))).
Proof.
  split; [reflexivity|]. intros Hport. cbv zeta.
  rewrite (dashboard_connect_run a port Hport).
  set (s0 := mkSys _ (world a)).
  pose proof (connect_lands s0 eq_refl) as Hland.
  pose proof (connect_error_form s0) as Hform.
  assert (Hcfg : forall r s', Controller.connect s0 = (r, s') ->
            com_port (self s') = port /\ baudrate (self s') = 9600 /\
            timeout (self s') = 2500).
  { intros r s'. subst s0. unfold Controller.connect, try_except.
    rewrite connect_try_run. cbv zeta.
    destruct (pending (world a));
      [rewrite connect_except_run; intros [= _ <-]; by repeat split|].
    destruct (pending (opened _ _));
      [rewrite connect_except_run; intros [= _ <-]; by repeat split|].
    destruct (pending (stored _ _ _));
      [rewrite connect_except_run|]; intros [= _ <-]; by repeat split. }
  destruct (Controller.connect s0) as [[b|e] [c' w']] eqn:Hrun; cbn [fst snd] in *.
  - split; [reflexivity|]. split; [reflexivity|]. exists c'.
    split; [reflexivity|]. destruct (Hcfg _ _ eq_refl) as (? & ? & ?).
    do 3 (split; [done|]). left.
    destruct Hland as [(_ & h & p & Hs) | (e & He & _)]; [|discriminate].
    split; [by eauto|]. by split.
  - split; [reflexivity|]. split; [reflexivity|]. exists c'.
    split; [reflexivity|]. destruct (Hcfg _ _ eq_refl) as (? & ? & ?).
    do 3 (split; [done|]). right.
    destruct Hland as [(Hr & _) | (e' & _ & Hd)]; [discriminate|].
    split; [exact Hd|]. split; [reflexivity|].
    destruct (Hform e _ eq_refl) as (cause & ->). by exists cause.
Qed.

Lemma dashboard_connect_outcomes_witness :
  let a' := snd (Dashboard.connect "COM7"
                   (mkApp Dashboard.init (mkWorld ∅ 0 [Some "Access is denied"] [] []))) in
  exists c', controller (dash a') = Some c' /\ com_port c' = "COM7".
Proof.
  intros a'.
  destruct (proj2 (dashboard_connect_outcomes
                     (mkApp Dashboard.init
                            (mkWorld ∅ 0 [Some "Access is denied"] [] []))
                     "COM7") ltac:(discriminate))
    as (_ & _ & c' & Hc & Hport & _).
  by exists c'.
Defined.

(** The card updates [disconnect] makes. *)
Definition cards_off : list ui_event :=
  [StatusText "Disconnected"; ControlsEnabled false;
   RelayUI 1 false; RelayUI 2 false; RelayUI 3 false; RelayUI 4 false].

(** X13: the dashboard's [disconnect] on a connected controller.  When
    [close] succeeds the port is closed, the flag and the polling flag
    are off, and the four cards are set to OFF while the cached relay
    states keep their values.  When [close] raises, the exception leaves
    the method: polling is already stopped, but the controller is still
    connected and no widget has been updated. *)
Theorem dashboard_disconnect_outcomes a c h p :
  controller (dash a) = Some c ->
  Connected (mkSys c (world a)) h p ->
  let a' := snd (Dashboard.disconnect a) in
  status_update_running (dash a') = false /\
  relay_states (dash a') = relay_states (dash a) /\
  match pending (world a) with
  | None =>
      fst (Dashboard.disconnect a) = Ret tt /\
      controller (dash a') = Some (with_flag false c) /\
      serial.port_is_open h (world a') = false /\
      ui (dash a') = ui (dash a) ++ cards_off
  | Some msg =>
      fst (Dashboard.disconnect a) = Raise (SerialException msg) /\
      controller (dash a') = Some c /\
      serial.port_is_open h (world a') = true /\
      ui (dash a') = ui (dash a)
  end.
Proof.
  intros Hctl (Hi & Hc & Hp & Ho). simpl in Hc, Hp. cbv zeta.
  assert (Hopen : serial.port_is_open h (world a) = true)
    by (unfold serial.port_is_open; by rewrite Hp).
  unfold Dashboard.disconnect. rewrite bind_get, Hctl.
  cbv [bind Dashboard.set_status_update_running modify Dashboard.on_controller].
  cbn [dash controller world]. rewrite Hctl, disconnect_run, Hc, Hopen.
  destruct (pending (world a)) as [msg|].
  - cbn [fst snd dash status_update_running relay_states controller ui world env self].
    split; [reflexivity|]. split; [reflexivity|].
    split; [reflexivity|]. split; [reflexivity|]. split; [|reflexivity].
    unfold serial.port_is_open. cbn [ports log called advance]. by rewrite Hp.
  - simpl. split; [reflexivity|]. split; [reflexivity|].
    split; [reflexivity|]. split; [reflexivity|]. split.
    + apply port_closed_after_close.
    + unfold cards_off. by rewrite <- !app_assoc.
Qed.

Lemma dashboard_disconnect_outcomes_witness :
  let a' := snd (Dashboard.disconnect (app0 [Some "Input/output error"] [])) in
  fst (Dashboard.disconnect (app0 [Some "Input/output error"] []))
    = Raise (SerialException "Input/output error") /\
  status_update_running (dash a') = false /\
  controller (dash a') = Some ctrl0.
Proof.
  intros a'.
  destruct (dashboard_disconnect_outcomes (app0 [Some "Input/output error"] [])
              ctrl0 0 port0 eq_refl (Connected_sys0 _ _))
    as (Hrun & _ & Hr & Hc & _).
  by repeat split.
Defined.

Lemma on_closing_run a :
  Buttons.on_closing a =
    match controller (dash a) with
    | Some c =>
        if is_connected c then
          match Controller.disconnect (mkSys c (world a)) with
          | (Ret _, s') =>
              (Ret tt,
               mkApp (mkDashboard (Some (self s')) (relay_states (dash a)) false
                        (ui (dash a) ++ [Destroyed])) (env s'))
          | (Raise e, s') =>
              (Raise e,
               mkApp (mkDashboard (Some (self s')) (relay_states (dash a)) false
                        (ui (dash a))) (env s'))
          end
        else
          (Ret tt,
           mkApp (mkDashboard (Some c) (relay_states (dash a)) false
                    (ui (dash a) ++ [Destroyed])) (world a))
    | None =>
        (Ret tt,
         mkApp (mkDashboard None (relay_states (dash a)) false
                  (ui (dash a) ++ [Destroyed])) (world a))
    end.
Proof.
  unfold Buttons.on_closing.
  cbv [bind Dashboard.set_status_update_running modify get
       Dashboard.controller_connected Dashboard.on_controller].
  destruct (controller (dash a)) as [c|]; cbn [dash controller world];
    [|reflexivity].
  destruct (is_connected c); [|reflexivity].
  simpl. by destruct (Controller.disconnect _) as [[[]|e] s'].
Qed.

(** X14: [on_closing] stops polling.  Without a connected controller it
    touches no port and destroys the window.  With a connected controller
    it closes the port and destroys the window when [close] succeeds;
    when [close] raises, the exception leaves the method before the
    window is destroyed. *)
Theorem on_closing_outcomes a :
  status_update_running (dash (snd (Buttons.on_closing a))) = false /\
  (Dashboard.controller_connected a = false ->
   Buttons.on_closing a =
     (Ret tt,
      mkApp (mkDashboard (controller (dash a)) (relay_states (dash a)) false
               (ui (dash a) ++ [Destroyed])) (world a))) /\
  (forall c h p, controller (dash a) = Some c ->
     Connected (mkSys c (world a)) h p ->
     let a' := snd (Buttons.on_closing a) in
     match pending (world a) with
     | None =>
         fst (Buttons.on_closing a) = Ret tt /\
         serial.port_is_open h (world a') = false /\
         ui (dash a') = ui (dash a) ++ [Destroyed]
     | Some msg =>
         fst (Buttons.on_closing a) = Raise (SerialException msg) /\
         serial.port_is_open h (world a') = true /\
         ui (dash a') = ui (dash a)
     end).
Proof.
  rewrite on_closing_run. split; [|split].
  - destruct (controller (dash a)) as [c|]; [|reflexivity].
    destruct (is_connected c); [|reflexivity].
    by destruct (Controller.disconnect _) as [[[]|e] s'].
  - unfold Dashboard.controller_connected.
    destruct (controller (dash a)) as [c|]; [|reflexivity]. by intros ->.
  - intros c h p Hctl (Hi & Hc & Hp & Ho). simpl in Hi, Hc, Hp. cbv zeta.
    assert (Hopen : serial.port_is_open h (world a) = true)
      by (unfold serial.port_is_open; by rewrite Hp).
    rewrite Hctl, Hi, disconnect_run, Hc, Hopen.
    destruct (pending (world a)) as [msg|]; simpl.
    + split; [reflexivity|]. split; [|reflexivity].
      unfold serial.port_is_open. cbn [ports log called advance]. by rewrite Hp.
    + split; [reflexivity|]. split; [|reflexivity].
      apply port_closed_after_close.
Qed.

Lemma on_closing_outcomes_witness :
  ui (dash (snd (Buttons.on_closing (app0 [Some "Input/output error"] [])))) = [] /\
  ui (dash (snd (Buttons.on_closing (app0 [] [])))) = [Destroyed].
Proof.
  split.
  - apply (proj2 (proj2 (on_closing_outcomes (app0 [Some "Input/output error"] [])))
            ctrl0 0%nat port0 eq_refl (Connected_sys0 _ _)).
  - apply (proj2 (proj2 (on_closing_outcomes (app0 [] [])))
            ctrl0 0%nat port0 eq_refl (Connected_sys0 _ _)).
Defined.

(** ** Every state the dashboard can reach *)

(** The controller the dashboard holds, if any, is in one of the two
    states of the lifecycle. *)
Definition DashSound (a : App) : Prop :=
  forall c, controller (dash a) = Some c -> Sound (mkSys c (world a)).

Definition keeps_sound {A} (m : M App A) : Prop :=
  forall a, DashSound a -> DashSound (snd (m a)).

Lemma ks_ret {A} (x : A) : keeps_sound (ret x).
Proof. by intros a. Qed.

Lemma ks_raise {A} (e : exn) : keeps_sound (@raise App A e).
Proof. by intros a. Qed.

Lemma ks_bind {A B} (m : M App A) (k : A -> M App B) :
  keeps_sound m -> (forall x, keeps_sound (k x)) -> keeps_sound (bind m k).
Proof.
  intros Hm Hk a Ha. unfold bind. specialize (Hm a Ha).
  destruct (m a) as [[x|e] a1]; simpl in *; [by apply Hk | exact Hm].
Qed.

Lemma ks_bind_get {B} (k : App -> M App B) :
  (forall a0, keeps_sound (k a0)) -> keeps_sound (bind get k).
Proof. intros Hk a. rewrite bind_get. apply Hk. Qed.

Lemma ks_try {A} (body : M App A) (handler : exn -> M App A) :
  keeps_sound body -> (forall e, keeps_sound (handler e)) ->
  keeps_sound (try_except body handler).
Proof.
  intros Hb Hh a Ha. unfold try_except. specialize (Hb a Ha).
  destruct (body a) as [[x|e] a1]; simpl in *; [exact Hb | by apply Hh].
Qed.

Lemma ks_if {A} (b : bool) (m1 m2 : M App A) :
  keeps_sound m1 -> keeps_sound m2 -> keeps_sound (if b then m1 else m2).
Proof. by destruct b. Qed.

Lemma ks_show e : keeps_sound (Dashboard.show e).
Proof. by intros a Ha. Qed.

Lemma ks_set_relay_state k v : keeps_sound (Dashboard.set_relay_state k v).
Proof. by intros a Ha. Qed.

Lemma ks_set_status_update_running b :
  keeps_sound (Dashboard.set_status_update_running b).
Proof. by intros a Ha. Qed.

Lemma ks_update_relay_ui k v : keeps_sound (Dashboard.update_relay_ui k v).
Proof.
  unfold Dashboard.update_relay_ui. apply ks_if; [apply ks_show | apply ks_raise].
Qed.

Lemma ks_on_controller {A} (m : M Sys A) :
  (forall s, Sound s -> Sound (snd (m s))) ->
  keeps_sound (Dashboard.on_controller m).
Proof.
  intros Hm a Ha. unfold Dashboard.on_controller.
  destruct (controller (dash a)) as [c|] eqn:Hc; [|exact Ha].
  specialize (Hm _ (Ha c Hc)).
  destruct (m _) as [r s']. simpl in *. intros c' [= <-].
  by apply (Sound_eta s').
Qed.

Lemma ks_for_each {A} (l : list A) (body : A -> M App unit) :
  (forall x, keeps_sound (body x)) -> keeps_sound (Dashboard.for_each l body).
Proof.
  intros Hb. induction l as [|x l IH]; [apply ks_ret|].
  cbn [Dashboard.for_each]. apply ks_bind; [apply Hb | intros _; exact IH].
Qed.

Lemma Sound_log c w e : Sound (mkSys c w) -> Sound (mkSys c (log e w)).
Proof. by intros H. Qed.

Lemma ks_sleep ms :
  keeps_sound (zoom world (fun w a => mkApp (dash a) w) (time.sleep ms)).
Proof. intros a Ha c Hc. apply Sound_log, Ha. exact Hc. Qed.

Create HintDb ks.

#[local] Hint Resolve ks_ret ks_raise ks_bind ks_bind_get ks_try ks_if ks_show
  ks_set_relay_state ks_set_status_update_running ks_update_relay_ui
  ks_on_controller ks_for_each ks_sleep Sound_disconnect Sound_setChannel
  Sound_get_status : ks.

#[local] Hint Extern 2 (keeps_sound (match ?x with _ => _ end)) =>
  destruct x : ks.

Lemma ks_turn_relay_on k : keeps_sound (Dashboard.turn_relay_on k).
Proof.
  unfold Dashboard.turn_relay_on. apply ks_bind_get. intros a0.
  apply ks_if; [apply ks_ret|]. apply ks_try; [|auto with ks].
  apply ks_bind; [|auto with ks].
  apply ks_on_controller. intros s. apply (Sound_setChannel s k true).
Qed.

Lemma ks_turn_relay_off k : keeps_sound (Dashboard.turn_relay_off k).
Proof.
  unfold Dashboard.turn_relay_off. apply ks_bind_get. intros a0.
  apply ks_if; [apply ks_ret|]. apply ks_try; [|auto with ks].
  apply ks_bind; [|auto with ks].
  apply ks_on_controller. intros s. apply (Sound_setChannel s k false).
Qed.

#[local] Hint Resolve ks_turn_relay_on ks_turn_relay_off : ks.

Lemma ks_toggle_relay k : keeps_sound (Dashboard.toggle_relay k).
Proof. unfold Dashboard.toggle_relay. auto 10 with ks. Qed.

Lemma ks_update_status_step : keeps_sound Dashboard.update_status_step.
Proof. unfold Dashboard.update_status_step. auto 20 with ks. Qed.

Lemma ks_disconnect : keeps_sound Dashboard.disconnect.
Proof. unfold Dashboard.disconnect. auto 20 with ks. Qed.

Lemma ks_on_closing : keeps_sound Buttons.on_closing.
Proof. unfold Buttons.on_closing. auto 20 with ks. Qed.

(** [connect] always installs a new controller, whose flag is off when
    its [connect] runs. *)
Lemma ks_connect port : keeps_sound (Dashboard.connect port).
Proof.
  intros a Ha. destruct (String.eqb_spec port "") as [->|Hport]; [exact Ha|].
  rewrite (dashboard_connect_run a port Hport).
  pose proof (Sound_connect
                (mkSys (Controller.init port Controller.default_baudrate
                          Controller.default_timeout) (world a)) eq_refl) as Hs.
  destruct (Controller.connect _) as [[b|e] s']; simpl in *;
    intros c' [= <-]; by apply (Sound_eta s').
Qed.

#[local] Hint Resolve ks_toggle_relay ks_update_status_step ks_disconnect
  ks_on_closing ks_connect : ks.

Lemma ks_toggle_connection port : keeps_sound (Buttons.toggle_connection port).
Proof. unfold Buttons.toggle_connection. auto with ks. Qed.

Lemma ks_turn_all_on : keeps_sound Buttons.turn_all_on.
Proof. unfold Buttons.turn_all_on. auto with ks. Qed.

Lemma ks_turn_all_off : keeps_sound Buttons.turn_all_off.
Proof. unfold Buttons.turn_all_off. auto with ks. Qed.

(** What can happen to the dashboard: the buttons, one turn of the
    polling loop, and closing the window. *)
Inductive gui : Type :=
| GToggleConnection (port : string)
| GToggleRelay (relay_num : Z)
| GTurnOn (relay_num : Z)
| GTurnOff (relay_num : Z)
| GAllOn
| GAllOff
| GPoll
| GClosing.

Definition run_gui (g : gui) : M App unit :=
  match g with
  | GToggleConnection port => Buttons.toggle_connection port
  | GToggleRelay k => Dashboard.toggle_relay k
  | GTurnOn k => Dashboard.turn_relay_on k
  | GTurnOff k => Dashboard.turn_relay_off k
  | GAllOn => Buttons.turn_all_on
  | GAllOff => Buttons.turn_all_off
  | GPoll => Dashboard.update_status_step
  | GClosing => Buttons.on_closing
  end.

(** The dashboard after a sequence of events; an event whose callback
    raises leaves the state it reached. *)
Definition session (l : list gui) (a : App) : App :=
  fold_left (fun a g => snd (run_gui g a)) l a.

Lemma session_sound l a : DashSound a -> DashSound (session l a).
Proof.
  revert a. induction l as [|g l IH]; intros a Ha; [exact Ha|].
  apply IH. destruct g; simpl.
  - by apply ks_toggle_connection.
  - by apply ks_toggle_relay.
  - by apply ks_turn_relay_on.
  - by apply ks_turn_relay_off.
  - by apply ks_turn_all_on.
  - by apply ks_turn_all_off.
  - by apply ks_update_status_step.
  - by apply ks_on_closing.
Qed.

(** X15: whatever buttons are pressed and polls run, in whatever order and
    with whatever failures of the transport, the controller held by the
    dashboard is always connected (flag on, handle on an open port) or
    disconnected (flag off, handle null or on a closed port): through the
    dashboard the flag is never on with a null or closed handle. *)
Theorem dashboard_session_two_states l w c :
  let a := session l (mkApp Dashboard.init w) in
  controller (dash a) = Some c ->
  (exists h p, Connected (mkSys c (world a)) h p) \/
  Disconnected (mkSys c (world a)).
Proof.
  cbv zeta. apply (session_sound l (mkApp Dashboard.init w)).
  intros c' Hc'. discriminate Hc'.
Qed.

Lemma dashboard_session_two_states_witness :
  let a := session [GToggleConnection "COM3"; GTurnOn 2; GPoll;
                    GToggleConnection "COM3"]
             (mkApp Dashboard.init
                (mkWorld ∅ 0 [None; None; None; None; Some "write timeout"] [] [])) in
  exists c, controller (dash a) = Some c /\
    ((exists h p, Connected (mkSys c (world a)) h p) \/
     Disconnected (mkSys c (world a))).
Proof.
  intros a. exists (mkController "COM3" 9600 2500 (Some 0%nat) false).
  assert (Hc : controller (dash a) =
               Some (mkController "COM3" 9600 2500 (Some 0%nat) false))
    by (vm_compute; reflexivity).
  split; [exact Hc|].
  exact (dashboard_session_two_states _ _ _ Hc).
Defined.

(** ** The polling loop *)

(** X16: while the dashboard holds no connected controller, the polling
    loop makes no library call: [n] turns of it leave [n] one-second
    sleeps in the trace and change nothing else; and with the polling
    flag off the loop ends at once. *)
Theorem status_loop_idle n a :
  (status_update_running (dash a) = false ->
   Dashboard.update_status_loop n a = (Ret tt, a)) /\
  (status_update_running (dash a) = true ->
   Dashboard.controller_connected a = false ->
   Dashboard.update_status_loop n a =
     (Ret tt,
      mkApp (dash a)
        (mkWorld (ports (world a)) (next_handle (world a)) (faults (world a))
           (arrivals (world a))
           (trace (world a) ++ repeat (Sleep 1000) n)))).
Proof.
  split.
  - intros Hr. destruct n; [reflexivity|].
    cbn [Dashboard.update_status_loop]. by rewrite bind_get, Hr.
  - revert a. induction n as [|n IH]; intros [d w] Hr Hc.
    + simpl. rewrite app_nil_r. by destruct w.
    + cbn [Dashboard.update_status_loop]. rewrite bind_get. cbn [dash] in *.
      rewrite Hr. unfold bind at 1.
      assert (Hstep : Dashboard.update_status_step (mkApp d w)
                      = (Ret tt, mkApp d (log (Sleep 1000) w))).
      { unfold Dashboard.update_status_step. rewrite bind_get, Hc. reflexivity. }
      rewrite Hstep, (IH (mkApp d (log (Sleep 1000) w)) Hr Hc).
      cbn [dash world log ports next_handle faults arrivals trace repeat].
      by rewrite <- app_assoc.
Qed.

Lemma status_loop_idle_witness :
  trace (world (snd (Dashboard.update_status_loop 3
                       (mkApp (mkDashboard None ∅ true []) (mkWorld ∅ 0 [] [] [])))))
  = [Sleep 1000; Sleep 1000; Sleep 1000].
Proof.
  rewrite (proj2 (status_loop_idle 3
                    (mkApp (mkDashboard None ∅ true []) (mkWorld ∅ 0 [] [] [])))
             eq_refl eq_refl).
  reflexivity.
Defined.

(** X17: where [close] does not fail, [disconnect] settles.  On a driver
    that was never connected, and on any disconnected driver, it does
    nothing and returns; a [disconnect] that returned made at most one
    [close] and is followed by one that does nothing; and on a connected
    driver whose [close] succeeds it returns and leaves the driver
    disconnected. *)
Theorem disconnect_settles :
  (forall port baud tmo w,
     Controller.disconnect (mkSys (Controller.init port baud tmo) w)
     = (Ret tt, mkSys (Controller.init port baud tmo) w)) /\
  (forall s, Disconnected s -> Controller.disconnect s = (Ret tt, s)) /\
  (forall s s1, Controller.disconnect s = (Ret tt, s1) ->
     Controller.disconnect s1 = (Ret tt, s1) /\
     exists new, trace (env s1) = trace (env s) ++ new /\
                 (new = [] \/ exists h, new = [Call h CClose])) /\
  (forall s h p, Connected s h p -> pending (env s) = None ->
     exists s1, Controller.disconnect s = (Ret tt, s1) /\ Disconnected s1).
Proof.
  split; [|split; [|split]].
  - intros. by rewrite disconnect_run.
  - intros [c w] (_ & Hcl). simpl in Hcl. rewrite disconnect_run.
    destruct (connection c) as [h|]; [|reflexivity]. by rewrite (Hcl h).
  - intros [c w] s1. rewrite disconnect_run.
    destruct (connection c) as [h|] eqn:Hc.
    + destruct (serial.port_is_open h w) eqn:Hopen.
      * destruct (pending w); [discriminate|]. intros [= <-]. split.
        -- rewrite disconnect_run. cbn [connection with_flag]. rewrite Hc.
           by rewrite port_closed_after_close.
        -- exists [Call h CClose]. split; [reflexivity | by eauto].
      * intros [= <-]. split.
        -- by rewrite disconnect_run, Hc, Hopen.
        -- exists []. split; [by rewrite app_nil_r | by left].
    + intros [= <-]. split.
      * by rewrite disconnect_run, Hc.
      * exists []. split; [by rewrite app_nil_r | by left].
  - intros [c w] h p (_ & Hc & Hp & Ho) Hf. simpl in *.
    rewrite disconnect_run, Hc. unfold serial.port_is_open at 1.
    rewrite Hp, Ho, Hf. eexists. split; [reflexivity|].
    split; [reflexivity|]. cbn [self env connection with_flag].
    intros h' Hh'. rewrite Hc in Hh'. injection Hh' as <-.
    apply port_closed_after_close.
Qed.

Lemma disconnect_settles_witness :
  let s1 := snd (Controller.disconnect (sys0 [] [])) in
  Controller.disconnect s1 = (Ret tt, s1) /\
  trace (env s1) = [Call 0 CClose] /\
  Disconnected s1.
Proof.
  intros s1.
  destruct (proj1 (proj2 (proj2 disconnect_settles)) (sys0 [] []) s1)
    as (Htwice & _); [reflexivity|].
  destruct (proj2 (proj2 (proj2 disconnect_settles)) (sys0 [] []) 0%nat port0
              (Connected_sys0 _ _) eq_refl) as (s1' & Hrun & Hd).
  assert (Hs : s1' = s1) by (subst s1; by rewrite Hrun).
  rewrite Hs in Hd. split; [exact Htwice|]. split; [reflexivity | exact Hd].
Defined.
